(** * Schema checks of the NHTSA ODI complaint analytics pipeline

    A shallow embedding of [src/data/schema_checks.py]: the schema document
    parser, the schema catalog and matcher, the four field validators and the
    report builder, followed by the properties established about them.

    Conventions of the embedding.
    - Text is a [string] of 8-bit characters: schema documents are decoded as
      latin-1, where every byte is one character.  Character-level routines
      work on [list ascii] and are lifted with [on_chars].
    - Python [dict]s keep insertion order, and the matcher's tie-break depends
      on it, so dictionaries are association lists with unique keys
      ([Dict]).
    - Code that can raise returns a [result]; [try]/[except] is a match on it.
    - A pandas column is a [Series]: a dtype flag and the cells as
      [astype("string")] renders them ([None] for a missing value). *)

From Stdlib Require Import String Ascii List Bool Arith NArith ZArith QArith Qabs Qround.
From Stdlib Require Import DecimalString Lia Sorted Permutation.
Import ListNotations.

Local Open Scope string_scope.
Local Open Scope list_scope.
Local Open Scope bool_scope.
Local Open Scope nat_scope.

(* ------------------------------------------------------------------------- *)
(** ** Characters and text *)
(* ------------------------------------------------------------------------- *)

Definition chars (s : string) : list ascii := list_ascii_of_string s.
Definition text_of (l : list ascii) : string := string_of_list_ascii l.
Definition on_chars (f : list ascii -> list ascii) (s : string) : string :=
  text_of (f (chars s)).

Definition code (c : ascii) : nat := nat_of_ascii c.

Definition in_range (lo hi : nat) (c : ascii) : bool :=
  (lo <=? code c) && (code c <=? hi).

(** [str.isspace] and the regular-expression class [\s], restricted to the
    8-bit range: TAB..CR, FS..US, SPACE, NEL and NBSP. *)
Definition isspace (c : ascii) : bool :=
  in_range 9 13 c || in_range 28 32 c || (code c =? 133) || (code c =? 160).

(** The class [\d]; the only decimal digits below 256 are [0-9]. *)
Definition isdigit (c : ascii) : bool := in_range 48 57 c.
Definition is_upper (c : ascii) : bool := in_range 65 90 c.
Definition is_lower (c : ascii) : bool := in_range 97 122 c.

(** Latin-1 capitals other than the multiplication sign, and their small
    forms other than the division sign. *)
Definition is_upper_latin1 (c : ascii) : bool :=
  in_range 192 222 c && negb (code c =? 215).
Definition is_lower_latin1 (c : ascii) : bool :=
  in_range 224 254 c && negb (code c =? 247).

(** [str.lower] on one character. *)
Definition lower_char (c : ascii) : ascii :=
  if is_upper c || is_upper_latin1 c then ascii_of_nat (code c + 32) else c.

(** [str.upper] on one character.  The three small letters of latin-1 whose
    capital lies outside the 8-bit range (sharp s, micro sign, y with
    diaeresis) are left as they are. *)
Definition upper_char (c : ascii) : ascii :=
  if is_lower c || is_lower_latin1 c then ascii_of_nat (code c - 32) else c.

Definition lower (s : string) : string := on_chars (map lower_char) s.
Definition upper (s : string) : string := on_chars (map upper_char) s.

Fixpoint dropwhile {A} (p : A -> bool) (l : list A) : list A :=
  match l with
  | [] => []
  | x :: r => if p x then dropwhile p r else l
  end.

Fixpoint takewhile {A} (p : A -> bool) (l : list A) : list A :=
  match l with
  | [] => []
  | x :: r => if p x then x :: takewhile p r else []
  end.

(** Removes the longest suffix whose elements all satisfy [p]. *)
Fixpoint rdropwhile {A} (p : A -> bool) (l : list A) : list A :=
  match l with
  | [] => []
  | x :: r =>
      match rdropwhile p r with
      | [] => if p x then [] else [x]
      | r' => x :: r'
      end
  end.

Definition strip_by (p : ascii -> bool) (l : list ascii) : list ascii :=
  rdropwhile p (dropwhile p l).

(** [str.strip()] *)
Definition strip (s : string) : string := on_chars (strip_by isspace) s.

Definition is_underscore (c : ascii) : bool := code c =? 95.

(** [str.strip("_")] *)
Definition strip_underscores (l : list ascii) : list ascii :=
  strip_by is_underscore l.

Definition underscore : ascii := "_"%char.

(* ------------------------------------------------------------------------- *)
(** ** Generic helpers *)
(* ------------------------------------------------------------------------- *)

(** The class [[a-z0-9]]. *)
Definition is_slug_char (c : ascii) : bool := is_lower c || isdigit c.

(** [re.sub] of the pattern "[^a-z0-9]+" by "_": every maximal run of characters
    outside [[a-z0-9]] becomes one underscore.  [in_run] tells that the
    previous character already belonged to the run being replaced. *)
Fixpoint sub_non_slug (in_run : bool) (l : list ascii) : list ascii :=
  match l with
  | [] => []
  | c :: r =>
      if is_slug_char c then c :: sub_non_slug false r
      else if in_run then sub_non_slug true r
      else underscore :: sub_non_slug true r
  end.

(** The value of [text.strip("_")] in [_normalize_identifier], before the
    [or "column"] fallback. *)
Definition slug_chars (value : string) : list ascii :=
  strip_underscores (sub_non_slug false (chars (lower (strip value)))).

(** [_normalize_identifier(value)], on [str(value)]. *)
Definition _normalize_identifier (value : string) : string :=
  match slug_chars value with
  | [] => "column"
  | l => text_of l
  end.

(** The [in] operator on text: [needle] occurs in [hay] as a substring. *)
Fixpoint starts_with (needle hay : list ascii) : bool :=
  match needle, hay with
  | [], _ => true
  | _ :: _, [] => false
  | a :: n', b :: h' => Ascii.eqb a b && starts_with n' h'
  end.

Fixpoint occurs_in (needle hay : list ascii) : bool :=
  starts_with needle hay ||
  match hay with
  | [] => false
  | _ :: h' => occurs_in needle h'
  end.

Definition contains (needle hay : string) : bool :=
  occurs_in (chars needle) (chars hay).

(** Membership of a name in a list or set of names. *)
Definition mem (x : string) (l : list string) : bool :=
  existsb (String.eqb x) l.

(** [sorted(values, key=...)]: a stable sort.  An element is placed before
    the first element of the sorted tail that is not smaller, so equal
    elements keep the order they had. *)
Fixpoint insert_sorted {A} (le : A -> A -> bool) (x : A) (l : list A) : list A :=
  match l with
  | [] => [x]
  | y :: r => if le x y then x :: l else y :: insert_sorted le x r
  end.

Definition sorted {A} (le : A -> A -> bool) (l : list A) : list A :=
  fold_right (insert_sorted le) [] l.

(** [set(values)]: the distinct values.  Only membership and size of a set
    are ever observed, apart from [sorted(...)] of it. *)
Definition set_of (l : list string) : list string := nodup string_dec l.

(** [sorted(set(values))] *)
Definition sorted_set (l : list string) : list string :=
  sorted String.leb (set_of l).

(** [sep.join(values)] *)
Definition join (sep : string) (l : list string) : string := String.concat sep l.

(** [values[:n]] *)
Definition take {A} (n : nat) (l : list A) : list A := firstn n l.

(* ------------------------------------------------------------------------- *)
(** ** Dictionaries and exceptions *)
(* ------------------------------------------------------------------------- *)

Definition Dict (V : Type) : Type := list (string * V).

Fixpoint dict_get {V} (k : string) (d : Dict V) : option V :=
  match d with
  | [] => None
  | (k', v) :: r => if String.eqb k k' then Some v else dict_get k r
  end.

(** [d[k] = v]: an existing key keeps its position. *)
Fixpoint dict_set {V} (k : string) (v : V) (d : Dict V) : Dict V :=
  match d with
  | [] => [(k, v)]
  | (k', v') :: r =>
      if String.eqb k k' then (k, v) :: r else (k', v') :: dict_set k v r
  end.

Definition dict_keys {V} (d : Dict V) : list string := map fst d.
Definition dict_has {V} (k : string) (d : Dict V) : bool := mem k (dict_keys d).

Inductive exn : Type :=
| FileNotFoundError (msg : string)
| ValueError (msg : string)
| RuntimeError (msg : string)
| KeyError (msg : string)
| AttributeError (msg : string)
| TypeError (msg : string).

(** [str(exc)] for the exceptions [_schema_catalog] catches, which carry one
    message.  ([str] of a [KeyError] would quote its message; none is ever
    caught there.) *)
Definition exn_str (e : exn) : string :=
  match e with
  | FileNotFoundError m | ValueError m | RuntimeError m
  | KeyError m | AttributeError m | TypeError m => m
  end.

Inductive result (A : Type) : Type :=
| Ok (a : A)
| Raise (e : exn).
Arguments Ok {A} a.
Arguments Raise {A} e.

Definition bind {A B} (r : result A) (k : A -> result B) : result B :=
  match r with
  | Ok a => k a
  | Raise e => Raise e
  end.

Notation "x <- r ;; k" := (bind r (fun x => k))
  (at level 61, r at next level, right associativity).

(* ------------------------------------------------------------------------- *)
(** ** Schema doc parsing config *)
(* ------------------------------------------------------------------------- *)

Definition char_is (n : nat) (c : ascii) : bool := code c =? n.

Definition span {A} (p : A -> bool) (l : list A) : list A * list A :=
  (takewhile p l, dropwhile p l).

Definition is_empty {A} (l : list A) : bool :=
  match l with [] => true | _ => false end.

(** The classes [A-Z0-9_], [A-Z0-9], and [A-Z0-9,/] with blanks. *)
Definition is_name_char (c : ascii) : bool :=
  is_upper c || isdigit c || is_underscore c.
Definition is_code_char (c : ascii) : bool := is_upper c || isdigit c.
Definition is_bracket_char (c : ascii) : bool :=
  is_upper c || isdigit c || char_is 44 c || isspace c || char_is 47 c.

(** The groups of a successful [FIELD_ROW_PATTERN] match. *)
Record FieldRow : Type := {
  group1 : list ascii;
  group2 : list ascii;
  group3 : list ascii;
  group4 : list ascii;
  group5 : list ascii
}.

(** [FIELD_ROW_PATTERN.match(line)]: optional blanks, the digits of group 1,
    blanks, the [A-Z0-9_] name of group 2, blanks, the capitals of group 3,
    the digits of group 4 between parentheses, optional blanks, and the rest
    of the line as group 5.  Each repetition is followed by a character outside its class, so the
    greedy scan is the only way to match.  [.] excludes the line feed; the
    lines handed over by [splitlines] hold none, and a tail that held one is
    reported as no match. *)
Definition FIELD_ROW_PATTERN (line : list ascii) : option FieldRow :=
  let r0 := dropwhile isspace line in
  let (g1, r1) := span isdigit r0 in
  let (w1, r2) := span isspace r1 in
  let (g2, r3) := span is_name_char r2 in
  let (w2, r4) := span isspace r3 in
  let (g3, r5) := span is_upper r4 in
  match r5 with
  | open :: r6 =>
      let (g4, r7) := span isdigit r6 in
      match r7 with
      | close :: r8 =>
          let g5 := dropwhile isspace r8 in
          if char_is 40 open && char_is 41 close
             && negb (is_empty g1) && negb (is_empty w1)
             && negb (is_empty g2) && negb (is_empty w2)
             && negb (is_empty g3) && negb (is_empty g4)
             && negb (existsb (char_is 10) g5)
          then Some {| group1 := g1; group2 := g2; group3 := g3;
                       group4 := g4; group5 := g5 |}
          else None
      | [] => None
      end
  | [] => None
  end.

(** [CODE_LINE_PATTERN.match(line)]: optional blanks, a group of one to ten
    characters of [A-Z0-9], optional blanks and an equals sign.  Returns the
    group when the line matches. *)
Definition CODE_LINE_PATTERN (line : list ascii) : option (list ascii) :=
  let (g, r) := span is_code_char (dropwhile isspace line) in
  match dropwhile isspace r with
  | c :: _ =>
      if char_is 61 c && negb (is_empty g) && (length g <=? 10)
      then Some g else None
  | [] => None
  end.

(** [BRACKET_CODES_PATTERN.finditer(line)]: the groups of the successive
    matches of a bracketed, non-empty run of characters of [A-Z0-9,/] and
    blanks.  [inside] holds, reversed, the class
    characters read since the last opening bracket, if one is pending. *)
Fixpoint BRACKET_CODES_PATTERN (inside : option (list ascii)) (l : list ascii)
  : list (list ascii) :=
  match l with
  | [] => []
  | c :: r =>
      if char_is 91 c then BRACKET_CODES_PATTERN (Some []) r
      else
        match inside with
        | None => BRACKET_CODES_PATTERN None r
        | Some acc =>
            if is_bracket_char c then BRACKET_CODES_PATTERN (Some (c :: acc)) r
            else if char_is 93 c && negb (is_empty acc)
            then rev acc :: BRACKET_CODES_PATTERN None r
            else BRACKET_CODES_PATTERN None r
        end
  end.

(** [text.split(",")] *)
Fixpoint split_commas (cur : list ascii) (l : list ascii) : list (list ascii) :=
  match l with
  | [] => [rev cur]
  | c :: r =>
      if char_is 44 c then rev cur :: split_commas [] r
      else split_commas (c :: cur) r
  end.

Definition SCHEMA_DOCS : Dict string :=
  [("complaints", "CMPL.txt"); ("recalls", "RCL.txt")].

Definition SCHEMA_OPTIONAL_COLUMNS : Dict (list string) :=
  [("complaints", []); ("recalls", ["do_not_drive"; "park_outside"])].

Definition SCHEMA_DATE_COLUMNS_OVERRIDES : Dict (list string) :=
  [("complaints", ["faildate"; "datea"; "ldate"; "purch_dt"; "manuf_dt"]);
   ("recalls", ["bgman"; "endman"; "odate"; "rcdate"; "datea"])].

Definition SCHEMA_ENUM_OVERRIDES : Dict (Dict (list string)) :=
  [("recalls", [("influenced_by", ["MFR"; "OVSC"; "ODI"])])].

Definition SCHEMA_LENGTH_OVERRIDES : Dict (Dict N) :=
  [("recalls", [("fmvss", 6%N)])].

Definition ALLOWED_PIPELINE_EXTRA_COLUMNS : list string :=
  ["source_zip"; "source_file"].

Definition COMMON_ODI_COMPLAINT_ID_COLUMNS : list string :=
  ["odi_number"; "odino"; "cmplid"; "complaint_number"].

Definition MODEL_YEAR_COLUMN_CANDIDATES : list string :=
  ["model_year"; "modelyear"; "veh_year"; "year"].

(** [d.get(k, default)] *)
Definition dict_get_default {V} (k : string) (default : V) (d : Dict V) : V :=
  match dict_get k d with
  | Some v => v
  | None => default
  end.

(** [_extract_codes_from_line(line)] *)
Definition _extract_codes_from_line (line : string) : list string :=
  let code_match :=
    match CODE_LINE_PATTERN (chars line) with
    | Some g => [upper (text_of g)]
    | None => []
    end in
  let raw_items :=
    flat_map (split_commas [])
             (BRACKET_CODES_PATTERN None (chars (upper line))) in
  let cleaned := map (fun item => upper (strip (text_of item))) raw_items in
  code_match ++ filter (fun c => negb (String.eqb c "")) cleaned.

(** [_is_probably_blank_line(line)] *)
Definition _is_probably_blank_line (line : string) : bool :=
  let stripped := strip line in
  String.eqb stripped "" ||
  forallb (fun c => char_is 61 c || char_is 45 c) (chars stripped).

(* ------------------------------------------------------------------------- *)
(** ** Schema doc parsing *)
(* ------------------------------------------------------------------------- *)

(** The line boundaries of [str.splitlines] below 256: LF, VT, FF, CR, FS, GS,
    RS and NEL. *)
Definition is_linebreak (c : ascii) : bool :=
  in_range 10 13 c || in_range 28 30 c || char_is 133 c.

(** [text.splitlines()]: CR LF is one boundary, and no empty line follows a
    final boundary. *)
Fixpoint splitlines_from (cur : list ascii) (l : list ascii) : list string :=
  match l with
  | [] => if is_empty cur then [] else [text_of (rev cur)]
  | c :: r =>
      if is_linebreak c then
        text_of (rev cur) ::
        match r with
        | c' :: r' =>
            if char_is 13 c && char_is 10 c' then splitlines_from [] r'
            else splitlines_from [] r
        | [] => []
        end
      else splitlines_from (c :: cur) r
  end.

Definition splitlines (text : string) : list string :=
  splitlines_from [] (chars text).

(** [int(digits)] *)
Definition int_of_digits (l : list ascii) : N :=
  fold_left (fun acc c => (acc * 10 + N.of_nat (code c - 48))%N) l 0%N.

(** The dictionary built for a field row while the document is scanned. *)
Record OpenField : Type := {
  o_index : N;
  o_name_raw : string;
  o_name : string;
  o_type : string;
  o_size : N;
  description_lines : list string;
  o_allowed_codes : list string
}.

(** [current_field["description_lines"].append(text)] together with
    [current_field["allowed_codes"].extend(_extract_codes_from_line(text))] *)
Definition append_description (text : string) (f : OpenField) : OpenField :=
  {| o_index := o_index f;
     o_name_raw := o_name_raw f;
     o_name := o_name f;
     o_type := o_type f;
     o_size := o_size f;
     description_lines := description_lines f ++ [text];
     o_allowed_codes := o_allowed_codes f ++ _extract_codes_from_line text |}.

(** The state of the scanning loop.  [current_field] is [None] until the first
    field row and afterwards is the very dictionary appended last to
    [fields]; the state therefore keeps [fields] reversed, with the open
    field at its head, and a continuation line updates that element. *)
Record ScanState : Type := {
  in_field_section : bool;
  fields_rev : list OpenField
}.

Definition scan_start : ScanState :=
  {| in_field_section := false; fields_rev := [] |}.

(** One iteration of [for line in lines]. *)
Definition scan_line (st : ScanState) (line : string) : ScanState :=
  if contains "FIELDS:" line then
    {| in_field_section := true; fields_rev := fields_rev st |}
  else if negb (in_field_section st) then st
  else if _is_probably_blank_line line then st
  else
    match FIELD_ROW_PATTERN (chars line) with
    | Some row =>
        let field_name_raw := strip (text_of (group2 row)) in
        let description_line := strip (text_of (group5 row)) in
        let current_field :=
          {| o_index := int_of_digits (group1 row);
             o_name_raw := field_name_raw;
             o_name := _normalize_identifier field_name_raw;
             o_type := upper (strip (text_of (group3 row)));
             o_size := int_of_digits (group4 row);
             description_lines := [];
             o_allowed_codes := [] |} in
        let current_field :=
          if String.eqb description_line "" then current_field
          else append_description description_line current_field in
        {| in_field_section := true;
           fields_rev := current_field :: fields_rev st |}
    | None =>
        match fields_rev st with
        | [] => st
        | current_field :: earlier =>
            let continuation := strip line in
            if String.eqb continuation "" then st
            else
              {| in_field_section := true;
                 fields_rev :=
                   append_description continuation current_field :: earlier |}
        end
    end.

(** The list [fields] after the loop over [lines]. *)
Definition scan_lines (lines : list string) : list OpenField :=
  rev (fields_rev (fold_left scan_line lines scan_start)).

Record FieldSpec : Type := {
  index : N;
  name_raw : string;
  name : string;
  type : string;
  size : N;
  description : string;
  is_date : bool;
  is_yes_no : bool;
  allowed_codes : list string
}.

Record SchemaSpec : Type := {
  schema_name : string;
  doc_path : string;
  fields : list FieldSpec;
  field_map : Dict FieldSpec;
  expected_columns : list string;
  required_columns : list string;
  optional_columns : list string
}.

(** The body of the loop that builds [normalized_fields]. *)
Definition normalize_field (schema : string) (field : OpenField) : FieldSpec :=
  let description_text := strip (join " " (description_lines field)) in
  let is_date :=
    mem (o_name field) (dict_get_default schema [] SCHEMA_DATE_COLUMNS_OVERRIDES) in
  let is_date :=
    if contains "YYYYMMDD" (upper description_text) then true else is_date in
  {| index := o_index field;
     name_raw := o_name_raw field;
     name := o_name field;
     type := o_type field;
     size := o_size field;
     description := description_text;
     is_date := is_date;
     is_yes_no :=
       contains "'Y' OR 'N'" (upper description_text)
       || contains "Y/N" (upper description_text);
     allowed_codes :=
       sorted_set (filter (fun c => negb (String.eqb c "")) (o_allowed_codes field)) |}.

Definition by_index (a b : OpenField) : bool := (o_index a <=? o_index b)%N.

(** The part of [_parse_schema_doc] that follows the scan: [fields] is known
    to be non-empty here. *)
Definition build_schema (doc_path schema : string) (fields : list OpenField)
  : SchemaSpec :=
  let normalized_fields := map (normalize_field schema) (sorted by_index fields) in
  let expected_columns := map name normalized_fields in
  let optional_columns := dict_get_default schema [] SCHEMA_OPTIONAL_COLUMNS in
  let required_columns :=
    filter (fun n => negb (mem n optional_columns)) expected_columns in
  {| schema_name := schema;
     doc_path := doc_path;
     fields := normalized_fields;
     field_map :=
       fold_left (fun d field => dict_set (name field) field d) normalized_fields [];
     expected_columns := expected_columns;
     required_columns := required_columns;
     optional_columns := sorted String.leb optional_columns |}.

(** The schema documents as the process finds them: [read_text path] is the
    latin-1 text of the file at [path], [None] when there is no such file. *)
Record DocStore : Type := {
  DOCS_DIR : string;
  read_text : string -> option string
}.

(** [_parse_schema_doc(doc_path, schema_name)] *)
Definition _parse_schema_doc (store : DocStore) (doc_path schema : string)
  : result SchemaSpec :=
  match read_text store doc_path with
  | None => Raise (FileNotFoundError ("Schema doc not found: " ++ doc_path)%string)
  | Some raw_text =>
      let fields := scan_lines (splitlines raw_text) in
      if is_empty fields
      then Raise (ValueError ("No schema fields parsed from " ++ doc_path)%string)
      else Ok (build_schema doc_path schema fields)
  end.

Record CatalogInfo : Type := {
  schemas : Dict SchemaSpec;
  errors_of : Dict string
}.

(** [DOCS_DIR / file_name] *)
Definition doc_path_of (store : DocStore) (file_name : string) : string :=
  (DOCS_DIR store ++ "/" ++ file_name)%string.

(** [_schema_catalog()]: the value computed on first use and cached. *)
Definition _schema_catalog (store : DocStore) : CatalogInfo :=
  fold_left
    (fun info entry =>
       match _parse_schema_doc store (doc_path_of store (snd entry)) (fst entry) with
       | Ok spec =>
           {| schemas := dict_set (fst entry) spec (schemas info);
              errors_of := errors_of info |}
       | Raise exc =>
           {| schemas := schemas info;
              errors_of := dict_set (fst entry) (exn_str exc) (errors_of info) |}
       end)
    SCHEMA_DOCS
    {| schemas := []; errors_of := [] |}.

(** [repr] of a list of names, as an f-string shows it. *)
Definition repr_list (l : list string) : string :=
  ("[" ++ join ", " (map (fun n => "'" ++ n ++ "'") l) ++ "]")%string.

(** [get_schema_spec(schema_name)] *)
Definition get_schema_spec (info : CatalogInfo) (schema : string)
  : result SchemaSpec :=
  match dict_get schema (errors_of info) with
  | Some message =>
      Raise (RuntimeError
               ("Schema '" ++ schema ++ "' could not be parsed: " ++ message)%string)
  | None =>
      match dict_get schema (schemas info) with
      | None =>
          Raise (KeyError
                   ("Schema '" ++ schema ++ "' not found (available: "
                    ++ repr_list (sorted String.leb (dict_keys (schemas info)))
                    ++ ")")%string)
      | Some spec => Ok spec
      end
  end.

(** [get_schema_columns(schema_name)] *)
Definition get_schema_columns (info : CatalogInfo) (schema : string)
  : result (list string) :=
  spec <- get_schema_spec info schema ;;
  Ok (expected_columns spec).

(* ------------------------------------------------------------------------- *)
(** ** Columns of data *)
(* ------------------------------------------------------------------------- *)

(** A pandas [Series].  [cells] is what [series.astype("string")] holds:
    the text of every value, [None] for a missing one. *)
Record Series : Type := {
  is_datetime64_any_dtype : bool;
  cells : list (option string)
}.

(** Boolean masks, one entry per row. *)
Definition mask_and (a b : list bool) : list bool :=
  map (fun p => fst p && snd p) (combine a b).
Definition mask_or (a b : list bool) : list bool :=
  map (fun p => fst p || snd p) (combine a b).
Definition mask_not (a : list bool) : list bool := map negb a.
Definition mask_sum (a : list bool) : nat := length (filter (fun b => b) a).

(** [values[mask]] *)
Definition select {A} (mask : list bool) (l : list A) : list A :=
  map snd (filter fst (combine mask l)).

Definition notna {A} (v : option A) : bool :=
  match v with Some _ => true | None => false end.
Definition isna {A} (v : option A) : bool := negb (notna v).

(** [values.dropna()] *)
Definition dropna {A} (l : list (option A)) : list A :=
  flat_map (fun v => match v with Some x => [x] | None => [] end) l.

(** One value of [_clean_text_series]: stripped, and missing when nothing is
    left. *)
Definition clean_value (v : option string) : option string :=
  match v with
  | None => None
  | Some s =>
      let t := strip s in
      if String.eqb t "" then None else Some t
  end.

(** [_clean_text_series(series)] *)
Definition _clean_text_series (series : Series) : list (option string) :=
  map clean_value (cells series).

(** [sorted(values.dropna().astype(str).unique().tolist())[:n]] *)
Definition examples_of (n : nat) (l : list (option string)) : list string :=
  take n (sorted_set (dropna l)).

(* ------------------------------------------------------------------------- *)
(** ** Calendar dates and numbers *)
(* ------------------------------------------------------------------------- *)

Definition is_leap_year (y : N) : bool :=
  ((y mod 4 =? 0) && negb (y mod 100 =? 0) || (y mod 400 =? 0))%N.

Definition days_in_month (y m : N) : N :=
  (if (m =? 2) then (if is_leap_year y then 29 else 28)
   else if (m =? 4) || (m =? 6) || (m =? 9) || (m =? 11) then 30
   else 31)%N.

(** A date of the proleptic Gregorian calendar, years 1 to 9999. *)
Definition real_calendar_date (y m d : N) : bool :=
  ((1 <=? y) && (1 <=? m) && (m <=? 12) && (1 <=? d) && (d <=? days_in_month y m))%N.

(** [text.str.fullmatch] of eight [\d]. *)
Definition is_eight_digits (t : string) : bool :=
  (length (chars t) =? 8) && forallb isdigit (chars t).

(** [pd.to_datetime(text, format="%Y%m%d", errors="coerce")] on one value:
    the year, month and day, or [None] for [NaT].  An eight-digit text can
    only be read as four, two and two digits, and is a date when these name
    a real calendar date.  The validator looks at the result for eight-digit
    texts only ([invalid_mask] holds through [~digits_mask] everywhere
    else), so other texts are given [None]. *)
Definition to_datetime_ymd (t : string) : option (N * N * N) :=
  if is_eight_digits t then
    let l := chars t in
    let y := int_of_digits (firstn 4 l) in
    let m := int_of_digits (firstn 2 (skipn 4 l)) in
    let d := int_of_digits (skipn 6 l) in
    if real_calendar_date y m d then Some (y, m, d) else None
  else None.

(** A number as [pd.to_numeric] reads it from text.  Values are kept as
    exact rationals instead of binary64, which agree on the integrality and
    range tests below for every decimal literal that binary64 holds
    exactly. *)
Inductive Number : Type :=
| Finite (q : Q)
| Infinite.

Definition is_sign (c : ascii) : bool := char_is 43 c || char_is 45 c.

Definition Zpow10 (n : N) : Z := Z.pow 10 (Z.of_N n).

(** The value of [mantissa * 10 ^ exponent]. *)
Definition scale10 (mantissa : Z) (exponent : Z) : Q :=
  if (0 <=? exponent)%Z
  then Qmake (mantissa * Z.pow 10 exponent) 1
  else Qmake mantissa (Z.to_pos (Z.pow 10 (- exponent))).

(** The exponent part of a literal: nothing, or [e] or [E], an optional
    sign and at least one digit. *)
Definition parse_exponent (l : list ascii) : option Z :=
  match l with
  | [] => Some 0%Z
  | e :: r =>
      if char_is 101 e || char_is 69 e then
        let (negative, digits) :=
          match r with
          | c :: r' => if is_sign c then (char_is 45 c, r') else (false, r)
          | [] => (false, [])
          end in
        if negb (is_empty digits) && forallb isdigit digits
        then Some (if negative then (- Z.of_N (int_of_digits digits))%Z
                   else Z.of_N (int_of_digits digits))
        else None
      else None
  end.

Definition text_is (s : string) (l : list ascii) : bool :=
  String.eqb (lower (text_of l)) s.

(** One value of [pd.to_numeric(text, errors="coerce")]: an optional sign,
    digits with an optional decimal point (at least one digit in all), an
    optional exponent; or a signed [inf] or [infinity] in any case.  Blanks
    around the literal are skipped.  [None] is the missing value that
    coercion leaves for any other text. *)
Definition to_numeric_text (t : string) : option Number :=
  let l := strip_by isspace (chars t) in
  let (negative, body) :=
    match l with
    | c :: r => if is_sign c then (char_is 45 c, r) else (false, l)
    | [] => (false, [])
    end in
  if text_is "inf" body || text_is "infinity" body then Some Infinite
  else
    let (int_part, r1) := span isdigit body in
    let (frac_part, r2) :=
      match r1 with
      | c :: r => if char_is 46 c then span isdigit r else ([], r1)
      | [] => ([], [])
      end in
    if is_empty int_part && is_empty frac_part then None
    else
      match parse_exponent r2 with
      | None => None
      | Some e =>
          let mantissa := Z.of_N (int_of_digits (int_part ++ frac_part)) in
          let mantissa := if negative then (- mantissa)%Z else mantissa in
          Some (Finite (scale10 mantissa (e - Z.of_nat (length frac_part))))
      end.

Definition to_numeric (l : list (option string)) : list (option Number) :=
  map (fun v => match v with Some t => to_numeric_text t | None => None end) l.

Definition one_billionth : Q := 1 # 1000000000.

(** [abs(value % 1) < 1e-9].  The remainder of an infinite value is not a
    number, and no comparison holds of it. *)
Definition is_integral (v : Number) : bool :=
  match v with
  | Finite q =>
      negb (Qle_bool one_billionth (Qabs (q - inject_Z (Qfloor q))))
  | Infinite => false
  end.

(** [value == 9999 or 1900 <= value <= 2100] *)
Definition model_year_in_range (v : Number) : bool :=
  match v with
  | Finite q =>
      Qeq_bool q (inject_Z 9999)
      || (Qle_bool (inject_Z 1900) q && Qle_bool q (inject_Z 2100))
  | Infinite => false
  end.

(* ------------------------------------------------------------------------- *)
(** ** Field validation helpers *)
(* ------------------------------------------------------------------------- *)

Definition is_nonempty {A} (l : list A) : bool := negb (is_empty l).

(** [_allowed_values_for_field(schema_name, field)] *)
Definition _allowed_values_for_field (schema : string) (field : FieldSpec)
  : list string :=
  let override_values :=
    if dict_has schema SCHEMA_ENUM_OVERRIDES
    then dict_get (name field) (dict_get_default schema [] SCHEMA_ENUM_OVERRIDES)
    else None in
  match override_values with
  | Some (v :: vs) => sorted_set (v :: vs)
  | _ =>
      if is_yes_no field then ["Y"; "N"]
      else if is_nonempty (allowed_codes field) then allowed_codes field
      else []
  end.

Record DateReport : Type := {
  date_checked : bool;
  date_non_null_count : nat;
  placeholder_zero_count : nat;
  invalid_date_count : nat;
  date_invalid_examples : list string
}.

Definition PLACEHOLDER_DATES : list string := ["0"; "00000000"; "0000-00-00"].

(** [_validate_date_field(series)] *)
Definition _validate_date_field (series : Series) : DateReport :=
  let result n z i ex :=
    {| date_checked := true; date_non_null_count := n;
       placeholder_zero_count := z; invalid_date_count := i;
       date_invalid_examples := ex |} in
  if is_datetime64_any_dtype series then
    result (mask_sum (map notna (cells series))) 0 0 []
  else
    let text := _clean_text_series series in
    let non_null_mask := map notna text in
    let non_null_count := mask_sum non_null_mask in
    if non_null_count =? 0 then result non_null_count 0 0 []
    else
      let upper_text := map (option_map upper) text in
      let zero_mask :=
        map (fun v => match v with
                      | Some u => mem u PLACEHOLDER_DATES
                      | None => false
                      end) upper_text in
      let placeholder := mask_sum zero_mask in
      let check_mask := mask_and non_null_mask (mask_not zero_mask) in
      if mask_sum check_mask =? 0 then result non_null_count placeholder 0 []
      else
        let digits_mask :=
          map (fun v => match v with
                        | Some t => is_eight_digits t
                        | None => false
                        end) text in
        let parseable :=
          map (fun p => match p with
                        | (true, Some t) => to_datetime_ymd t
                        | _ => None
                        end) (combine check_mask text) in
        let invalid_mask :=
          mask_and check_mask (mask_or (mask_not digits_mask) (map isna parseable)) in
        let invalid := mask_sum invalid_mask in
        result non_null_count placeholder invalid
               (if 0 <? invalid then examples_of 5 (select invalid_mask text) else []).

Record NumericReport : Type := {
  numeric_checked : bool;
  numeric_non_null_count : nat;
  non_numeric_count : nat;
  non_integer_count : nat;
  digits_overflow_count : nat;
  numeric_invalid_examples : list string
}.

(** The number of digit characters of a text: its length once every
    character outside [\d] is removed. *)
Definition digit_length (t : string) : nat :=
  length (filter isdigit (chars t)).

(** [_validate_numeric_field(series, max_digits)] *)
Definition _validate_numeric_field (series : Series) (max_digits : N)
  : NumericReport :=
  let text := _clean_text_series series in
  let non_null_mask := map notna text in
  let non_null_count := mask_sum non_null_mask in
  if non_null_count =? 0 then
    {| numeric_checked := true; numeric_non_null_count := 0;
       non_numeric_count := 0; non_integer_count := 0;
       digits_overflow_count := 0; numeric_invalid_examples := [] |}
  else
    let numeric_values := to_numeric text in
    let non_numeric_mask := mask_and non_null_mask (map isna numeric_values) in
    let non_numeric := mask_sum non_numeric_mask in
    let parseable_mask := mask_and non_null_mask (mask_not (map isna numeric_values)) in
    let some_parseable := 0 <? mask_sum parseable_mask in
    let parseable_values := dropna (select parseable_mask numeric_values) in
    let integer_mask := map is_integral parseable_values in
    let non_integer :=
      if some_parseable then mask_sum (mask_not integer_mask) else 0 in
    let digit_lengths :=
      map digit_length (dropna (select parseable_mask text)) in
    let overflow_mask :=
      map (fun n => (max_digits <? N.of_nat n)%N) digit_lengths in
    let digits_overflow :=
      if some_parseable then mask_sum overflow_mask else 0 in
    (* the non-integer flags, put back at the rows they came from *)
    let non_integer_series :=
      map (fun p => match p with
                    | (true, Some v) => negb (is_integral v)
                    | _ => false
                    end) (combine parseable_mask numeric_values) in
    let total_invalid_mask :=
      if some_parseable then mask_or non_numeric_mask non_integer_series
      else non_numeric_mask in
    {| numeric_checked := true;
       numeric_non_null_count := non_null_count;
       non_numeric_count := non_numeric;
       non_integer_count := non_integer;
       digits_overflow_count := digits_overflow;
       numeric_invalid_examples :=
         if (0 <? non_numeric) || (0 <? non_integer)
         then examples_of 5 (select total_invalid_mask text) else [] |}.

Record CharLengthReport : Type := {
  char_checked : bool;
  char_non_null_count : nat;
  too_long_count : nat;
  max_observed_length : nat
}.

(** [_validate_char_length(series, max_length, allow_datetime)] *)
Definition _validate_char_length (series : Series) (max_length : N)
           (allow_datetime : bool) : CharLengthReport :=
  if allow_datetime && is_datetime64_any_dtype series then
    {| char_checked := false; char_non_null_count := 0;
       too_long_count := 0; max_observed_length := 0 |}
  else
    let text := _clean_text_series series in
    let non_null_count := mask_sum (map notna text) in
    let lengths := map (fun t => length (chars t)) (dropna text) in
    if (non_null_count =? 0) || is_empty lengths then
      {| char_checked := true; char_non_null_count := non_null_count;
         too_long_count := 0; max_observed_length := 0 |}
    else
      {| char_checked := true; char_non_null_count := non_null_count;
         too_long_count :=
           mask_sum (map (fun n => (max_length <? N.of_nat n)%N) lengths);
         max_observed_length := fold_right Nat.max 0 lengths |}.

Record EnumReport : Type := {
  enum_checked : bool;
  enum_non_null_count : nat;
  invalid_value_count : nat;
  enum_invalid_examples : list string
}.

(** [_validate_enum_field(series, allowed_values)] *)
Definition _validate_enum_field (series : Series) (allowed_values : list string)
  : EnumReport :=
  if is_empty allowed_values then
    {| enum_checked := false; enum_non_null_count := 0;
       invalid_value_count := 0; enum_invalid_examples := [] |}
  else
    let text := _clean_text_series series in
    let normalized := map (option_map upper) text in
    let non_null_mask := map notna normalized in
    let non_null_count := mask_sum non_null_mask in
    if non_null_count =? 0 then
      {| enum_checked := true; enum_non_null_count := 0;
         invalid_value_count := 0; enum_invalid_examples := [] |}
    else
      let allowed_set := set_of (map upper allowed_values) in
      let isin :=
        map (fun v => match v with
                      | Some u => mem u allowed_set
                      | None => false
                      end) normalized in
      let invalid_mask := mask_and non_null_mask (mask_not isin) in
      let invalid := mask_sum invalid_mask in
      {| enum_checked := true;
         enum_non_null_count := non_null_count;
         invalid_value_count := invalid;
         enum_invalid_examples :=
           if 0 <? invalid then examples_of 8 (select invalid_mask normalized)
           else [] |}.

(* ------------------------------------------------------------------------- *)
(** ** Data frames *)
(* ------------------------------------------------------------------------- *)

(** A pandas [DataFrame]: the labelled columns in their order and the length
    of the index.  pandas itself lets two columns carry one label. *)
Record DataFrame : Type := {
  frame_columns : list (string * Series);
  frame_rows : nat
}.

(** [df.columns] *)
Definition column_labels (df : DataFrame) : list string :=
  map fst (frame_columns df).

(** What [df[label]] evaluates to: the column, or a frame of all the columns
    that carry the label when there are several. *)
Inductive Selection : Type :=
| OneSeries (series : Series)
| SubFrame (columns : list Series).

(** [df[label]] *)
Definition getitem (df : DataFrame) (label : string) : result Selection :=
  match filter (fun c => String.eqb (fst c) label) (frame_columns df) with
  | [] => Raise (KeyError label)
  | [c] => Ok (OneSeries (snd c))
  | cs => Ok (SubFrame (map snd cs))
  end.

(** The validators reach for [series.astype("string").str], which a frame
    does not have. *)
Definition for_text (sel : Selection) : result Series :=
  match sel with
  | OneSeries series => Ok series
  | SubFrame _ => Raise (AttributeError "'DataFrame' object has no attribute 'str'")
  end.

(** [int(...)] of a per-column reduction and [pd.to_numeric] both want one
    column. *)
Definition for_scalar (sel : Selection) : result Series :=
  match sel with
  | OneSeries series => Ok series
  | SubFrame _ => Raise (TypeError "expected a Series")
  end.

Definition option_string_eqb (a b : option string) : bool :=
  match a, b with
  | Some x, Some y => String.eqb x y
  | None, None => true
  | _, _ => false
  end.

Fixpoint row_eqb (a b : list (option string)) : bool :=
  match a, b with
  | [], [] => true
  | x :: a', y :: b' => option_string_eqb x y && row_eqb a' b'
  | _, _ => false
  end.

(** [values.duplicated().sum()]: the entries equal to an earlier one. *)
Fixpoint count_duplicated {A} (eqb : A -> A -> bool) (seen : list A) (l : list A)
  : nat :=
  match l with
  | [] => 0
  | x :: r =>
      (if existsb (eqb x) seen then 1 else 0) + count_duplicated eqb (x :: seen) r
  end.

(** The rows of a frame, each a list of cells in column order. *)
Definition frame_row (df : DataFrame) (i : nat) : list (option string) :=
  map (fun c => nth i (cells (snd c)) None) (frame_columns df).

(** [int(df.duplicated().sum())]; a frame without columns has no
    duplicates. *)
Definition duplicated_rows (df : DataFrame) : nat :=
  if is_empty (frame_columns df) then 0
  else count_duplicated row_eqb [] (map (frame_row df) (seq 0 (frame_rows df))).

(* ------------------------------------------------------------------------- *)
(** ** Schema matching *)
(* ------------------------------------------------------------------------- *)

(** [len(set(columns) & set(expected))] *)
Definition overlap_count (columns expected : list string) : nat :=
  length (filter (fun c => mem c (set_of expected)) (set_of columns)).

(** [overlap / max(len(set(expected)), 1)], kept as an exact quotient. *)
Definition match_score (overlap : nat) (expected : list string) : Q :=
  Qmake (Z.of_nat overlap) (Pos.of_nat (Nat.max (length (set_of expected)) 1)).

Definition Qgt_bool (a b : Q) : bool := negb (Qle_bool a b).

Definition THRESHOLD : Q := 35 # 100.

Record Best : Type := {
  best_schema_name : option string;
  best_score : Q;
  best_overlap : nat
}.

(** One iteration of [for schema_name, schema_spec in catalog.items()]. *)
Definition detect_step (columns : list string) (best : Best)
           (entry : string * SchemaSpec) : Best :=
  let overlap := overlap_count columns (expected_columns (snd entry)) in
  let score := match_score overlap (expected_columns (snd entry)) in
  if Qgt_bool score (best_score best) then
    {| best_schema_name := Some (fst entry);
       best_score := score;
       best_overlap := overlap |}
  else best.

Definition detect_best (catalog : Dict SchemaSpec) (columns : list string) : Best :=
  fold_left (detect_step columns) catalog
            {| best_schema_name := None; best_score := 0; best_overlap := 0 |}.

(** [_detect_schema_name(columns)] *)
Definition _detect_schema_name (catalog : Dict SchemaSpec) (columns : list string)
  : option string * Q * nat :=
  let best := detect_best catalog columns in
  if Qgt_bool THRESHOLD (best_score best)
  then (None, best_score best, best_overlap best)
  else (best_schema_name best, best_score best, best_overlap best).

(** [_find_id_column(df)] *)
Definition _find_id_column (df : DataFrame) : option string :=
  match find (fun c => mem c (column_labels df)) COMMON_ODI_COMPLAINT_ID_COLUMNS with
  | Some c => Some c
  | None => if mem "record_id" (column_labels df) then Some "record_id" else None
  end.

(** [_find_model_year_column(df)] *)
Definition _find_model_year_column (df : DataFrame) : option string :=
  if mem "yeartxt" (column_labels df) then Some "yeartxt"
  else find (fun c => mem c (column_labels df)) MODEL_YEAR_COLUMN_CANDIDATES.

(* ------------------------------------------------------------------------- *)
(** ** Report builder *)
(* ------------------------------------------------------------------------- *)

(** The messages of a report.  The report keeps them in this form;
    [message_text] gives the text the code formats for each. *)
Inductive Message : Type :=
| CouldNotParseSchemaDoc (failed_schema_name message : string)
| MissingRequiredColumns (schema : string) (missing_required : list string)
| UnexpectedExtraColumns (unexpected_extra_columns : list string)
| ColumnOrderDiffers
| NonNumericValues (column_name : string) (count : nat)
| NonIntegerValues (column_name : string) (count : nat)
| DigitsOverflow (column_name : string) (count : nat) (size : N)
| InvalidDates (column_name : string) (count : nat)
| PlaceholderZeroDates (column_name : string) (count : nat)
| LegacyLengthOverflow (column_name : string) (count : nat) (size allowed : N)
| LengthOverflow (column_name : string) (count : nat) (allowed : N)
| OutsideDocumentedCodes (column_name : string) (count : nat)
| SchemaNotAvailable (schema : string)
| NoConfidentMatch
| ModelYearOutOfRange (column_name : string) (count : nat).

Record IssueCounts : Type := {
  date_invalid_total : nat;
  date_zero_placeholder_total : nat;
  numeric_non_numeric_total : nat;
  numeric_non_integer_total : nat;
  numeric_digits_overflow_total : nat;
  char_length_overflow_total : nat;
  enum_invalid_total : nat
}.

Definition no_issues : IssueCounts :=
  {| date_invalid_total := 0; date_zero_placeholder_total := 0;
     numeric_non_numeric_total := 0; numeric_non_integer_total := 0;
     numeric_digits_overflow_total := 0; char_length_overflow_total := 0;
     enum_invalid_total := 0 |}.

Definition add_issues (a b : IssueCounts) : IssueCounts :=
  {| date_invalid_total := date_invalid_total a + date_invalid_total b;
     date_zero_placeholder_total :=
       date_zero_placeholder_total a + date_zero_placeholder_total b;
     numeric_non_numeric_total :=
       numeric_non_numeric_total a + numeric_non_numeric_total b;
     numeric_non_integer_total :=
       numeric_non_integer_total a + numeric_non_integer_total b;
     numeric_digits_overflow_total :=
       numeric_digits_overflow_total a + numeric_digits_overflow_total b;
     char_length_overflow_total :=
       char_length_overflow_total a + char_length_overflow_total b;
     enum_invalid_total := enum_invalid_total a + enum_invalid_total b |}.

(** The entry of [field_checks] for one column. *)
Record ColumnReport : Type := {
  column_type : string;
  column_size : N;
  numeric : option NumericReport;
  date : option DateReport;
  char_length : option CharLengthReport;
  enum : option EnumReport
}.

(** The entries of the report that the checks keep writing to. *)
Record Findings : Type := {
  field_checks : Dict ColumnReport;
  field_issue_counts : IssueCounts;
  warnings : list Message;
  errors : list Message
}.

Definition no_findings : Findings :=
  {| field_checks := []; field_issue_counts := no_issues;
     warnings := []; errors := [] |}.

(** [report["warnings"].append(m)] *)
Definition warn (m : Message) (f : Findings) : Findings :=
  {| field_checks := field_checks f;
     field_issue_counts := field_issue_counts f;
     warnings := warnings f ++ [m];
     errors := errors f |}.

(** [report["errors"].append(m)] *)
Definition fail (m : Message) (f : Findings) : Findings :=
  {| field_checks := field_checks f;
     field_issue_counts := field_issue_counts f;
     warnings := warnings f;
     errors := errors f ++ [m] |}.

Definition warn_if (b : bool) (m : Message) (f : Findings) : Findings :=
  if b then warn m f else f.
Definition fail_if (b : bool) (m : Message) (f : Findings) : Findings :=
  if b then fail m f else f.

(** [report["field_issue_counts"][...] += ...] *)
Definition count_issues (delta : IssueCounts) (f : Findings) : Findings :=
  {| field_checks := field_checks f;
     field_issue_counts := add_issues (field_issue_counts f) delta;
     warnings := warnings f;
     errors := errors f |}.

(** [report["field_checks"][column_name] = column_report] *)
Definition record_column (column_name : string) (cr : ColumnReport) (f : Findings)
  : Findings :=
  {| field_checks := dict_set column_name cr (field_checks f);
     field_issue_counts := field_issue_counts f;
     warnings := warnings f;
     errors := errors f |}.

(** The [NUMBER] branch of the loop over the present expected columns. *)
Definition check_number (column_name : string) (field : FieldSpec)
           (sel : Selection) (st : Findings * ColumnReport)
  : result (Findings * ColumnReport) :=
  if String.eqb (type field) "NUMBER" then
    series <- for_text sel ;;
    let numeric_report := _validate_numeric_field series (size field) in
    let f :=
      count_issues
        {| date_invalid_total := 0; date_zero_placeholder_total := 0;
           numeric_non_numeric_total := non_numeric_count numeric_report;
           numeric_non_integer_total := non_integer_count numeric_report;
           numeric_digits_overflow_total := digits_overflow_count numeric_report;
           char_length_overflow_total := 0; enum_invalid_total := 0 |}
        (fst st) in
    let f := fail_if (0 <? non_numeric_count numeric_report)
               (NonNumericValues column_name (non_numeric_count numeric_report)) f in
    let f := warn_if (0 <? non_integer_count numeric_report)
               (NonIntegerValues column_name (non_integer_count numeric_report)) f in
    let f := warn_if (0 <? digits_overflow_count numeric_report)
               (DigitsOverflow column_name (digits_overflow_count numeric_report)
                               (size field)) f in
    Ok (f, {| column_type := column_type (snd st);
              column_size := column_size (snd st);
              numeric := Some numeric_report;
              date := date (snd st);
              char_length := char_length (snd st);
              enum := enum (snd st) |})
  else Ok st.

(** The [is_date] branch. *)
Definition check_date (column_name : string) (field : FieldSpec)
           (sel : Selection) (st : Findings * ColumnReport)
  : result (Findings * ColumnReport) :=
  if is_date field then
    series <- for_text sel ;;
    let date_report := _validate_date_field series in
    let f :=
      count_issues
        {| date_invalid_total := invalid_date_count date_report;
           date_zero_placeholder_total := placeholder_zero_count date_report;
           numeric_non_numeric_total := 0; numeric_non_integer_total := 0;
           numeric_digits_overflow_total := 0;
           char_length_overflow_total := 0; enum_invalid_total := 0 |}
        (fst st) in
    let f := fail_if (0 <? invalid_date_count date_report)
               (InvalidDates column_name (invalid_date_count date_report)) f in
    let f := warn_if (0 <? placeholder_zero_count date_report)
               (PlaceholderZeroDates column_name
                                     (placeholder_zero_count date_report)) f in
    Ok (f, {| column_type := column_type (snd st);
              column_size := column_size (snd st);
              numeric := numeric (snd st);
              date := Some date_report;
              char_length := char_length (snd st);
              enum := enum (snd st) |})
  else Ok st.

(** The [CHAR] branch: the length check, then the enum check. *)
Definition check_char (detected_schema_name column_name : string)
           (schema_length_overrides : Dict N) (field : FieldSpec)
           (sel : Selection) (st : Findings * ColumnReport)
  : result (Findings * ColumnReport) :=
  if String.eqb (type field) "CHAR" then
    let allowed_max_length :=
      dict_get_default column_name (size field) schema_length_overrides in
    series <- for_text sel ;;
    let char_report :=
      _validate_char_length series allowed_max_length (is_date field) in
    let f :=
      count_issues
        {| date_invalid_total := 0; date_zero_placeholder_total := 0;
           numeric_non_numeric_total := 0; numeric_non_integer_total := 0;
           numeric_digits_overflow_total := 0;
           char_length_overflow_total := too_long_count char_report;
           enum_invalid_total := 0 |}
        (fst st) in
    let f :=
      if 0 <? too_long_count char_report then
        if negb (allowed_max_length =? size field)%N
        then warn (LegacyLengthOverflow column_name (too_long_count char_report)
                                        (size field) allowed_max_length) f
        else fail (LengthOverflow column_name (too_long_count char_report)
                                  allowed_max_length) f
      else f in
    let allowed_values := _allowed_values_for_field detected_schema_name field in
    let enum_report := _validate_enum_field series allowed_values in
    let f :=
      count_issues
        {| date_invalid_total := 0; date_zero_placeholder_total := 0;
           numeric_non_numeric_total := 0; numeric_non_integer_total := 0;
           numeric_digits_overflow_total := 0;
           char_length_overflow_total := 0;
           enum_invalid_total := invalid_value_count enum_report |}
        f in
    let f := warn_if (0 <? invalid_value_count enum_report)
               (OutsideDocumentedCodes column_name
                                       (invalid_value_count enum_report)) f in
    Ok (f, {| column_type := column_type (snd st);
              column_size := column_size (snd st);
              numeric := numeric (snd st);
              date := date (snd st);
              char_length := Some char_report;
              enum := Some enum_report |})
  else Ok st.

(** [d[k]] *)
Definition dict_item {V} (k : string) (d : Dict V) : result V :=
  match dict_get k d with
  | Some v => Ok v
  | None => Raise (KeyError k)
  end.

(** The body of [for column_name in present_expected]. *)
Definition check_column (df : DataFrame) (detected_schema_name : string)
           (spec : SchemaSpec) (schema_length_overrides : Dict N)
           (f : Findings) (column_name : string) : result Findings :=
  field <- dict_item column_name (field_map spec) ;;
  let column_report :=
    {| column_type := type field; column_size := size field;
       numeric := None; date := None; char_length := None; enum := None |} in
  series <- getitem df column_name ;;
  st <- check_number column_name field series (f, column_report) ;;
  st <- check_date column_name field series st ;;
  st <- check_char detected_schema_name column_name schema_length_overrides
                   field series st ;;
  Ok (record_column column_name (snd st) (fst st)).

(** A [for] loop whose body can raise. *)
Fixpoint for_each {S A} (body : S -> A -> result S) (l : list A) (s : S)
  : result S :=
  match l with
  | [] => Ok s
  | x :: r => s' <- body s x ;; for_each body r s'
  end.

(** The report.  Its entries [field_checks], [field_issue_counts],
    [warnings] and [errors] are the four components of [findings]. *)
Record Report : Type := {
  dataset_name : string;
  rows : nat;
  columns : nat;
  duplicate_rows : option nat;
  id_column_found : option string;
  id_null_count : option nat;
  id_duplicate_count : option nat;
  model_year_column_found : option string;
  model_year_out_of_range_count : option nat;
  report_schema_name : option string;
  schema_doc_path : option string;
  schema_match_score : Q;
  report_expected_columns : option nat;
  present_expected_columns : option nat;
  missing_columns : list string;
  missing_optional_columns : list string;
  extra_columns : list string;
  unexpected_extra_columns : list string;
  column_order_matches_expected : option bool;
  findings : Findings
}.

(** The entries the report gets when a schema is matched. *)
Record Structure : Type := {
  s_schema_doc_path : option string;
  s_expected_columns : option nat;
  s_present_expected_columns : option nat;
  s_missing_columns : list string;
  s_missing_optional_columns : list string;
  s_extra_columns : list string;
  s_unexpected_extra_columns : list string;
  s_column_order_matches_expected : option bool
}.

(** Their values in the freshly created report. *)
Definition no_structure : Structure :=
  {| s_schema_doc_path := None; s_expected_columns := None;
     s_present_expected_columns := None; s_missing_columns := [];
     s_missing_optional_columns := []; s_extra_columns := [];
     s_unexpected_extra_columns := [];
     s_column_order_matches_expected := None |}.

Fixpoint names_eqb (a b : list string) : bool :=
  match a, b with
  | [], [] => true
  | x :: a', y :: b' => String.eqb x y && names_eqb a' b'
  | _, _ => false
  end.

(** The truth value of an optional name: [None] and the empty name are
    false. *)
Definition truthy (n : option string) : bool :=
  match n with
  | Some s => negb (String.eqb s "")
  | None => false
  end.

Definition present_expected_of (df : DataFrame) (spec : SchemaSpec) : list string :=
  filter (fun c => mem c (column_labels df)) (expected_columns spec).

Definition missing_required_of (df : DataFrame) (spec : SchemaSpec) : list string :=
  filter (fun c => negb (mem c (column_labels df))) (required_columns spec).

Definition extra_columns_of (df : DataFrame) (spec : SchemaSpec) : list string :=
  filter (fun c => negb (mem c (set_of (expected_columns spec)))) (column_labels df).

Definition unexpected_extra_of (df : DataFrame) (spec : SchemaSpec) : list string :=
  filter (fun c => negb (mem c ALLOWED_PIPELINE_EXTRA_COLUMNS)) (extra_columns_of df spec).

Definition order_matches (df : DataFrame) (spec : SchemaSpec) : bool :=
  names_eqb
    (filter (fun c => mem c (set_of (expected_columns spec))) (column_labels df))
    (present_expected_of df spec).

(** The branch [if schema_spec:] of [collect_schema_report], started from
    the findings [f] gathered so far. *)
Definition check_against_schema (df : DataFrame) (detected_schema_name : string)
           (spec : SchemaSpec) (f : Findings) : result (Structure * Findings) :=
  let present_expected := present_expected_of df spec in
  let missing_required := missing_required_of df spec in
  let missing_optional :=
    filter (fun c => negb (mem c (column_labels df))) (optional_columns spec) in
  let unexpected_extra_columns := unexpected_extra_of df spec in
  let structure :=
    {| s_schema_doc_path := Some (doc_path spec);
       s_expected_columns := Some (length (expected_columns spec));
       s_present_expected_columns := Some (length present_expected);
       s_missing_columns := missing_required;
       s_missing_optional_columns := missing_optional;
       s_extra_columns := extra_columns_of df spec;
       s_unexpected_extra_columns := unexpected_extra_columns;
       s_column_order_matches_expected := Some (order_matches df spec) |} in
  let f := fail_if (is_nonempty missing_required)
             (MissingRequiredColumns detected_schema_name missing_required) f in
  let f := warn_if (is_nonempty unexpected_extra_columns)
             (UnexpectedExtraColumns unexpected_extra_columns) f in
  let f := warn_if (negb (order_matches df spec)) ColumnOrderDiffers f in
  let schema_length_overrides :=
    dict_get_default detected_schema_name [] SCHEMA_LENGTH_OVERRIDES in
  f <- for_each (check_column df detected_schema_name spec schema_length_overrides)
                present_expected f ;;
  Ok (structure, f).

(** The [else] branch: no schema to check against. *)
Definition without_schema (catalog : Dict SchemaSpec)
           (detected_schema_name : option string) (f : Findings) : Findings :=
  match detected_schema_name with
  | Some n =>
      warn_if (truthy detected_schema_name && negb (dict_has n catalog))
              (SchemaNotAvailable n) f
  | None => warn NoConfidentMatch f
  end.

(** The schema name, score and overlap that [collect_schema_report] settles
    on before it checks anything. *)
Definition resolve_schema (catalog : Dict SchemaSpec) (df : DataFrame)
           (schema_name : option string) : option string * Q * nat :=
  match schema_name with
  | None => _detect_schema_name catalog (column_labels df)
  | Some n =>
      match dict_get n catalog with
      | Some spec =>
          let overlap := overlap_count (column_labels df) (expected_columns spec) in
          (Some n, match_score overlap (expected_columns spec), overlap)
      | None => (Some n, 0%Q, 0)
      end
  end.

(** The identifier column diagnostics. *)
Definition check_id_column (df : DataFrame)
  : result (option string * option nat * option nat) :=
  match _find_id_column df with
  | Some id_column =>
      sel <- getitem df id_column ;;
      series <- for_scalar sel ;;
      Ok (Some id_column,
          Some (mask_sum (map isna (cells series))),
          if (N.of_nat (frame_rows df) <=? 1000000)%N
          then Some (count_duplicated option_string_eqb [] (cells series))
          else None)
  | None => Ok (None, None, None)
  end.

(** The model year diagnostics: the column found and the count of values
    out of range. *)
Definition check_model_year (df : DataFrame)
  : result (option (string * nat)) :=
  match _find_model_year_column df with
  | Some model_year_column =>
      sel <- getitem df model_year_column ;;
      series <- for_scalar sel ;;
      let values := to_numeric (cells series) in
      let invalid :=
        map (fun v => match v with
                      | Some x => negb (model_year_in_range x)
                      | None => false
                      end) values in
      Ok (Some (model_year_column, mask_sum invalid))
  | None => Ok None
  end.

(** The warnings the report starts with: one for every schema document that
    could not be parsed. *)
Definition catalog_warnings (info : CatalogInfo) : Findings :=
  fold_left (fun f failed => warn (CouldNotParseSchemaDoc (fst failed) (snd failed)) f)
            (errors_of info) no_findings.

(** [catalog.get(detected_schema_name) if detected_schema_name else None] *)
Definition schema_spec_of (catalog : Dict SchemaSpec)
           (detected_schema_name : option string) : option SchemaSpec :=
  match detected_schema_name with
  | Some n => if truthy detected_schema_name then dict_get n catalog else None
  | None => None
  end.

(** The two branches of [if schema_spec: ... else: ...]. *)
Definition check_resolved (catalog : Dict SchemaSpec) (df : DataFrame)
           (detected_schema_name : option string) (f : Findings)
  : result (Structure * Findings) :=
  match detected_schema_name, schema_spec_of catalog detected_schema_name with
  | Some n, Some spec => check_against_schema df n spec f
  | _, _ => Ok (no_structure, without_schema catalog detected_schema_name f)
  end.

(** The warning that closes the model year diagnostics. *)
Definition model_year_warning (model_year : option (string * nat)) (f : Findings)
  : Findings :=
  match model_year with
  | Some (model_year_column, out_of_range) =>
      warn_if (0 <? out_of_range)
              (ModelYearOutOfRange model_year_column out_of_range) f
  | None => f
  end.

(** [collect_schema_report(df, dataset_name, schema_name=None)], given the
    value [info] of [_schema_catalog()]. *)
Definition collect_schema_report (info : CatalogInfo) (df : DataFrame)
           (dataset_name : string) (schema_name : option string)
  : result Report :=
  let catalog := schemas info in
  let resolved := resolve_schema catalog df schema_name in
  let detected_schema_name := fst (fst resolved) in
  checked <- check_resolved catalog df detected_schema_name (catalog_warnings info) ;;
  id <- check_id_column df ;;
  model_year <- check_model_year df ;;
  Ok {| dataset_name := dataset_name;
        rows := frame_rows df;
        columns := length (column_labels df);
        duplicate_rows :=
          if (N.of_nat (frame_rows df) <=? 500000)%N
          then Some (duplicated_rows df) else None;
        id_column_found := fst (fst id);
        id_null_count := snd (fst id);
        id_duplicate_count := snd id;
        model_year_column_found := option_map fst model_year;
        model_year_out_of_range_count := option_map snd model_year;
        report_schema_name := detected_schema_name;
        schema_doc_path := s_schema_doc_path (fst checked);
        schema_match_score := snd (fst resolved);
        report_expected_columns := s_expected_columns (fst checked);
        present_expected_columns := s_present_expected_columns (fst checked);
        missing_columns := s_missing_columns (fst checked);
        missing_optional_columns := s_missing_optional_columns (fst checked);
        extra_columns := s_extra_columns (fst checked);
        unexpected_extra_columns := s_unexpected_extra_columns (fst checked);
        column_order_matches_expected :=
          s_column_order_matches_expected (fst checked);
        findings := model_year_warning model_year (snd checked) |}.

(** [report["warnings"]] and [report["errors"]] *)
Definition report_warnings (r : Report) : list Message := warnings (findings r).
Definition report_errors (r : Report) : list Message := errors (findings r).

(** [str(n)] *)
Definition str_of_nat (n : nat) : string := NilEmpty.string_of_uint (Nat.to_uint n).
Definition str_of_N (n : N) : string := NilEmpty.string_of_uint (N.to_uint n).

(** Puts a comma after every third digit of a reversed numeral, unless it is
    the last. *)
Fixpoint commas_rev (k : nat) (l : list ascii) : list ascii :=
  match l with
  | [] => []
  | c :: r =>
      if is_empty r then [c]
      else if k =? 2 then c :: ","%char :: commas_rev 0 r
      else c :: commas_rev (S k) r
  end.

(** [f"{n:,}"] *)
Definition with_commas (n : nat) : string :=
  text_of (rev (commas_rev 0 (rev (chars (str_of_nat n))))).

(** [_preview_list(values, max_items=8)] *)
Definition _preview_list (values : list string) : string :=
  if is_empty values then "[]"
  else if length values <=? 8 then ("[" ++ join ", " values ++ "]")%string
  else ("[" ++ join ", " (take 8 values) ++ ", ... +"
        ++ str_of_nat (length values - 8) ++ " more]")%string.

(** The text of each message. *)
Definition message_text (m : Message) : string :=
  match m with
  | CouldNotParseSchemaDoc failed message =>
      "Could not parse schema doc for " ++ failed ++ ": " ++ message
  | MissingRequiredColumns schema missing =>
      "Missing required columns for " ++ schema ++ ": " ++ _preview_list missing
  | UnexpectedExtraColumns extra =>
      "Unexpected extra columns: " ++ _preview_list extra
  | ColumnOrderDiffers =>
      "Expected columns are present but column order differs from schema doc"
  | NonNumericValues c n => c ++ ": " ++ with_commas n ++ " non-numeric values"
  | NonIntegerValues c n =>
      c ++ ": " ++ with_commas n ++ " non-integer numeric values"
  | DigitsOverflow c n size =>
      c ++ ": " ++ with_commas n ++ " values exceed NUMBER(" ++ str_of_N size
        ++ ") digit length"
  | InvalidDates c n => c ++ ": " ++ with_commas n ++ " invalid YYYYMMDD date values"
  | PlaceholderZeroDates c n =>
      c ++ ": " ++ with_commas n ++ " placeholder zero date values"
  | LegacyLengthOverflow c n size allowed =>
      c ++ ": " ++ with_commas n ++ " values exceed doc CHAR(" ++ str_of_N size
        ++ ") length (allowed legacy max " ++ str_of_N allowed ++ ")"
  | LengthOverflow c n allowed =>
      c ++ ": " ++ with_commas n ++ " values exceed CHAR(" ++ str_of_N allowed ++ ")"
  | OutsideDocumentedCodes c n =>
      c ++ ": " ++ with_commas n ++ " values outside documented codes"
  | SchemaNotAvailable schema =>
      "Schema '" ++ schema ++ "' requested but not available"
  | NoConfidentMatch =>
      "Could not confidently match dataset columns to complaints or recalls schema"
  | ModelYearOutOfRange c n =>
      c ++ ": " ++ with_commas n ++ " values outside expected range (1900-2100 or 9999)"
  end%string.

(* ------------------------------------------------------------------------- *)
(** ** Notions used to state the properties *)
(* ------------------------------------------------------------------------- *)

(** No underscore is followed by another one. *)
Fixpoint single_underscores (l : list ascii) : bool :=
  match l with
  | [] => true
  | c :: r =>
      match r with
      | c' :: _ => negb (is_underscore c && is_underscore c')
      | [] => true
      end && single_underscores r
  end.

(** A small letter, a digit or an underscore. *)
Definition is_identifier_char (c : ascii) : bool :=
  is_slug_char c || is_underscore c.

(** The shape of a normalized identifier: not empty, made of small letters,
    digits and single underscores, with no underscore at either end. *)
Definition well_shaped (l : list ascii) : Prop :=
  l <> [] /\
  forallb is_identifier_char l = true /\
  single_underscores l = true /\
  match l with c :: _ => is_underscore c = false | [] => True end /\
  match rev l with c :: _ => is_underscore c = false | [] => True end.


(** A stripped text that is one of the all-zero placeholders. *)
Definition is_placeholder (t : string) : bool := mem (upper t) PLACEHOLDER_DATES.

(** A text of exactly eight digits that names a real calendar date when read
    as YYYYMMDD. *)
Definition is_yyyymmdd_date (t : string) : bool :=
  is_eight_digits t &&
  real_calendar_date (int_of_digits (firstn 4 (chars t)))
                     (int_of_digits (firstn 2 (skipn 4 (chars t))))
                     (int_of_digits (skipn 6 (chars t))).

(** The values the Date validator is to count as invalid: not missing, not a
    placeholder, and not an eight-digit real date. *)
Definition counted_invalid_date (v : option string) : bool :=
  match clean_value v with
  | Some t => negb (is_placeholder t) && negb (is_yyyymmdd_date t)
  | None => false
  end.

Definition counted_placeholder_date (v : option string) : bool :=
  match clean_value v with
  | Some t => is_placeholder t
  | None => false
  end.

(** A column of text values, none of them missing. *)
Definition text_series (values : list string) : Series :=
  {| is_datetime64_any_dtype := false; cells := map Some values |}.


(** The line feed, and a document given by its lines. *)
Definition LF : string := String (ascii_of_nat 10) EmptyString.
Definition document (lines : list string) : string := join LF lines.

(** A document store that holds one document, for the recalls schema. *)
Definition recalls_only (raw_text : string) : DocStore :=
  {| DOCS_DIR := "docs";
     read_text := fun path =>
       if String.eqb path "docs/RCL.txt" then Some raw_text else None |}.

(** A recalls document that declares none of the optional columns. *)
Definition doc_without_optional : string :=
  document ["RECALLS"; "FIELDS:"; "======="; "1  MAKETXT  CHAR(25)  Vehicle make"].

(** A document whose two field rows carry the same name. *)
Definition doc_with_repeated_name : string :=
  document ["FIELDS:"; "1  MAKETXT  CHAR(25)  Vehicle make";
            "2  MAKETXT  CHAR(30)  Vehicle make, again"].

(** A recalls document that gives FMVSS the size of its legacy override. *)
Definition doc_fmvss_six : string :=
  document ["FIELDS:"; "1  FMVSS  CHAR(6)  Safety standard number"].


(** The score of a collection of column names against one schema. *)
Definition score_against (columns : list string) (spec : SchemaSpec) : Q :=
  match_score (overlap_count columns (expected_columns spec)) (expected_columns spec).

(** The messages that end up among the errors; every other message is a
    warning. *)
Definition is_error_message (m : Message) : bool :=
  match m with
  | MissingRequiredColumns _ _ | NonNumericValues _ _
  | InvalidDates _ _ | LengthOverflow _ _ _ => true
  | _ => false
  end.

Definition leb_holds (a b : string) : Prop := String.leb a b = true.

(** A raw value that the Enum validator holds against the column: not
    missing, and outside the allowed values once both are upper-cased. *)
Definition fails_enum (allowed_values : list string) (raw : string) : Prop :=
  strip raw <> "" /\ mem (upper (strip raw)) (map upper allowed_values) = false.

Definition normalized_name_ok (f : OpenField) : Prop :=
  o_name f = _normalize_identifier (o_name_raw f).

Definition index_le (a b : FieldSpec) : Prop := (index a <= index b)%N.





(** A frame of text columns, given with their values; the index is as long
    as the first column. *)
Definition text_frame (columns : list (string * list string)) : DataFrame :=
  {| frame_columns := map (fun c => (fst c, text_series (snd c))) columns;
     frame_rows := match columns with c :: _ => length (snd c) | [] => 0 end |}.

Definition messages_if (b : bool) (m : Message) : list Message :=
  if b then [m] else [].

(** What the report owes to one checked column, given its field and its
    values: the messages for the anomalies the validators find, each in the
    list it belongs to.  [W] and [E] are the warnings and the errors of the
    report. *)
Definition column_messages (schema column_name : string) (overrides : Dict N)
           (field : FieldSpec) (series : Series) (W E : list Message) : Prop :=
  (type field = "NUMBER" ->
   let r := _validate_numeric_field series (size field) in
   (0 < non_numeric_count r ->
    In (NonNumericValues column_name (non_numeric_count r)) E) /\
   (0 < non_integer_count r ->
    In (NonIntegerValues column_name (non_integer_count r)) W) /\
   (0 < digits_overflow_count r ->
    In (DigitsOverflow column_name (digits_overflow_count r) (size field)) W)) /\
  (is_date field = true ->
   let r := _validate_date_field series in
   (0 < invalid_date_count r ->
    In (InvalidDates column_name (invalid_date_count r)) E) /\
   (0 < placeholder_zero_count r ->
    In (PlaceholderZeroDates column_name (placeholder_zero_count r)) W)) /\
  (type field = "CHAR" ->
   let allowed := dict_get_default column_name (size field) overrides in
   let r := _validate_char_length series allowed (is_date field) in
   let e := _validate_enum_field series (_allowed_values_for_field schema field) in
   (0 < too_long_count r ->
    (allowed = size field ->
     In (LengthOverflow column_name (too_long_count r) allowed) E) /\
    (allowed <> size field ->
     In (LegacyLengthOverflow column_name (too_long_count r) (size field) allowed) W)) /\
   (0 < invalid_value_count e ->
    In (OutsideDocumentedCodes column_name (invalid_value_count e)) W)).


(** The findings [f'] are the findings [f] with the warnings [w] and the
    errors [e] appended, each list holding messages of its own kind only. *)
Definition extends_with (f f' : Findings) (w e : list Message) : Prop :=
  warnings f' = warnings f ++ w /\
  errors f' = errors f ++ e /\
  Forall (fun m => is_error_message m = false) w /\
  Forall (fun m => is_error_message m = true) e.


(** A recalls document with a numeric field, character fields, a date field
    and a yes/no field. *)
Definition sample_recalls_doc : string :=
  document ["RECALLS FILE"; ""; "FIELDS:"; "=======";
            "1  RECORD_ID  NUMBER(9)  Running sequence number";
            "2  CAMPNO  CHAR(12)  Campaign number";
            "3  ODATE  CHAR(8)  Owner notification date";
            "               (YYYYMMDD)";
            "4  FMVSS  CHAR(3)  Safety standard number";
            "5  DO_NOT_DRIVE  CHAR(1)  'Y' or 'N'"].

(** A dataset for it, with one extra column and several anomalies. *)
Definition sample_frame : DataFrame :=
  text_frame [("record_id", ["1"; "x"; "2.5"]);
              ("campno", ["20V001000"; "20V002000"; ""]);
              ("odate", ["20230101"; "00000000"; "20231301"]);
              ("fmvss", ["123"; "1234"; "1234567"]);
              ("do_not_drive", ["Y"; "n"; "maybe"]);
              ("year", ["2020"; "1800"; "9999"])].

(** A dataset with a single FMVSS value of seven characters. *)
Definition fmvss_frame : DataFrame := text_frame [("fmvss", ["1234567"])].




(** What [pd.to_numeric] makes of one raw value once it is cleaned. *)
Definition numeric_of (v : option string) : option Number :=
  match clean_value v with
  | Some t => to_numeric_text t
  | None => None
  end.

(** The values the Numeric validator is to count, one predicate per counter:
    not missing and not a number; a number that is not integral; a number
    written with more digit characters than [max_digits]. *)
Definition counted_non_numeric (v : option string) : bool :=
  notna (clean_value v) && isna (numeric_of v).

Definition counted_non_integer (v : option string) : bool :=
  match numeric_of v with
  | Some x => negb (is_integral x)
  | None => false
  end.

Definition counted_digits_overflow (max_digits : N) (v : option string) : bool :=
  match clean_value v, numeric_of v with
  | Some t, Some _ => (max_digits <? N.of_nat (digit_length t))%N
  | _, _ => false
  end.

(** The values the CharLength validator is to count: not missing and longer
    than [max_length] once stripped. *)
Definition counted_too_long (max_length : N) (v : option string) : bool :=
  match clean_value v with
  | Some t => (max_length <? N.of_nat (length (chars t)))%N
  | None => false
  end.

(** The values the Enum validator is to count: not missing and, in upper
    case, outside the upper-cased allowed values. *)
Definition counted_outside_codes (allowed_values : list string) (v : option string)
  : bool :=
  match clean_value v with
  | Some t => negb (mem (upper t) (map upper allowed_values))
  | None => false
  end.

(** A column with every text value in upper case. *)
Definition upper_series (series : Series) : Series :=
  {| is_datetime64_any_dtype := is_datetime64_any_dtype series;
     cells := map (option_map upper) (cells series) |}.


(** A recalls dataset with the one column of [doc_without_optional] followed
    by a provenance column. *)
Definition provenance_frame : DataFrame :=
  text_frame [("maketxt", ["FORD"; "KIA"]); ("source_zip", ["a.zip"; "a.zip"])].

(** The candidates of [_find_id_column] and of [_find_model_year_column], in
    the order they are tried. *)
Definition id_column_priority : list string :=
  COMMON_ODI_COMPLAINT_ID_COLUMNS ++ ["record_id"].
Definition model_year_priority : list string :=
  "yeartxt" :: MODEL_YEAR_COLUMN_CANDIDATES.

(** [found] is the first of [candidates] among [labels]; [None] when none of
    them is. *)
Definition first_present (labels candidates : list string) (found : option string)
  : Prop :=
  match found with
  | Some c =>
      In c labels /\
      exists before after,
        candidates = before ++ c :: after /\
        forall x, In x before -> ~ In x labels
  | None => forall x, In x candidates -> ~ In x labels
  end.


(* ========================================================================= *)
(** * Properties *)
(* ========================================================================= *)

(* ------------------------------------------------------------------------- *)
(** ** Lists: trimming and sorting *)
(* ------------------------------------------------------------------------- *)

Section Trimming.
Context {A : Type} (p : A -> bool).

Lemma dropwhile_suffix (l : list A) :
  exists pre, l = pre ++ dropwhile p l.
Proof.
  induction l as [|x l [pre IH]]; simpl.
  - now exists [].
  - destruct (p x).
    + exists (x :: pre). simpl. now f_equal.
    + now exists [].
Qed.

Lemma dropwhile_head (l : list A) :
  match dropwhile p l with
  | x :: _ => p x = false
  | [] => True
  end.
Proof.
  induction l as [|x l IH]; simpl; [exact I|].
  destruct (p x) eqn:E; [exact IH | exact E].
Qed.

Lemma rdropwhile_prefix (l : list A) :
  exists suf, l = rdropwhile p l ++ suf.
Proof.
  induction l as [|x l [suf IH]]; simpl.
  - now exists [].
  - destruct (rdropwhile p l) as [|y r'] eqn:E.
    + destruct (p x).
      * now exists (x :: l).
      * exists suf. simpl in *. now f_equal.
    + exists suf. simpl in *. now f_equal.
Qed.

Lemma rdropwhile_last (l : list A) :
  match rev (rdropwhile p l) with
  | x :: _ => p x = false
  | [] => True
  end.
Proof.
  induction l as [|x l IH]; simpl; [exact I|].
  destruct (rdropwhile p l) as [|y r'] eqn:E.
  - destruct (p x) eqn:Ex; simpl; [exact I | exact Ex].
  - change (rev (x :: y :: r')) with (rev (y :: r') ++ [x]).
    destruct (rev (y :: r')) as [|z t] eqn:Er.
    + apply (f_equal (@rev A)) in Er. rewrite rev_involutive in Er. discriminate.
    + exact IH.
Qed.

Lemma rdropwhile_head (l : list A) :
  match l with
  | x :: _ => p x = false ->
              match rdropwhile p l with y :: _ => y = x | [] => False end
  | [] => True
  end.
Proof.
  destruct l as [|x l]; simpl; [exact I|].
  intros Hx. destruct (rdropwhile p l); [rewrite Hx|]; reflexivity.
Qed.
End Trimming.

Section Sorting.
Context {A : Type} (le : A -> A -> bool).
Hypothesis le_total : forall a b, le a b = true \/ le b a = true.

Let R (a b : A) : Prop := le a b = true.

Lemma insert_sorted_perm (x : A) (l : list A) :
  Permutation (x :: l) (insert_sorted le x l).
Proof.
  induction l as [|y l IH]; simpl; [reflexivity|].
  destruct (le x y); [reflexivity|].
  rewrite perm_swap. now constructor.
Qed.

Lemma sorted_perm (l : list A) : Permutation l (sorted le l).
Proof.
  induction l as [|x l IH]; simpl; [constructor|].
  rewrite <- insert_sorted_perm. now constructor.
Qed.

Lemma insert_sorted_hd (x y : A) (l : list A) :
  R y x -> HdRel R y l -> HdRel R y (insert_sorted le x l).
Proof.
  intros Hyx Hl. destruct l as [|z l]; simpl.
  - now constructor.
  - destruct (le x z); constructor; trivial.
    now inversion Hl.
Qed.

Lemma insert_sorted_Sorted (x : A) (l : list A) :
  Sorted R l -> Sorted R (insert_sorted le x l).
Proof.
  induction l as [|y l IH]; simpl; intros Hs.
  - repeat constructor.
  - destruct (le x y) eqn:E.
    + constructor; [exact Hs | now constructor].
    + inversion Hs as [|? ? Hs' Hhd]; subst.
      constructor; [now apply IH|].
      apply insert_sorted_hd; trivial.
      destruct (le_total x y) as [H|H]; [congruence | exact H].
Qed.

Lemma sorted_Sorted (l : list A) : Sorted R (sorted le l).
Proof.
  induction l as [|x l IH]; simpl; [constructor|].
  now apply insert_sorted_Sorted.
Qed.
End Sorting.

Lemma Sorted_firstn {A} (R : A -> A -> Prop) (n : nat) (l : list A) :
  Sorted R l -> Sorted R (firstn n l).
Proof.
  revert l. induction n as [|n IH]; intros l Hs; simpl; [constructor|].
  destruct l as [|x l]; [constructor|].
  inversion Hs as [|? ? Hs' Hhd]; subst.
  constructor; [now apply IH|].
  destruct l as [|y l]; destruct n; simpl; constructor.
  now inversion Hhd.
Qed.

Lemma NoDup_firstn {A} (n : nat) (l : list A) : NoDup l -> NoDup (firstn n l).
Proof.
  intros Hn. rewrite <- (firstn_skipn n l) in Hn.
  now apply NoDup_app_remove_r in Hn.
Qed.

(* ------------------------------------------------------------------------- *)
(** ** The identifier normalizer *)
(* ------------------------------------------------------------------------- *)

Lemma chars_text_of (l : list ascii) : chars (text_of l) = l.
Proof. apply list_ascii_of_string_of_list_ascii. Qed.

Lemma text_of_chars (s : string) : text_of (chars s) = s.
Proof. apply string_of_list_ascii_of_string. Qed.

Lemma slug_char_not_underscore (c : ascii) :
  is_slug_char c = true -> is_underscore c = false.
Proof.
  unfold is_slug_char, is_lower, isdigit, in_range, is_underscore.
  intros H. apply Nat.eqb_neq. intros E. rewrite E in H. discriminate.
Qed.

Lemma sub_non_slug_chars (b : bool) (l : list ascii) :
  forallb is_identifier_char (sub_non_slug b l) = true.
Proof.
  revert b. induction l as [|c l IH]; intros b; simpl; [reflexivity|].
  destruct (is_slug_char c) eqn:E; simpl.
  - unfold is_identifier_char at 1. now rewrite E, IH.
  - destruct b; simpl; now rewrite ?IH.
Qed.

(** Inside a run being replaced the output does not resume with an
    underscore, and nowhere does it hold two in a row. *)
Lemma sub_non_slug_single (l : list ascii) :
  forall b,
    single_underscores (sub_non_slug b l) = true /\
    (b = true ->
     match sub_non_slug b l with
     | c :: _ => is_underscore c = false
     | [] => True
     end).
Proof.
  induction l as [|c l IH]; intros b; simpl; [now split|].
  destruct (is_slug_char c) eqn:E.
  - destruct (IH false) as [Hs _]. split.
    + simpl. rewrite Hs, (slug_char_not_underscore c E).
      now destruct (sub_non_slug false l).
    + intros _. now apply slug_char_not_underscore.
  - destruct (IH true) as [Hs Hh]. destruct b.
    + split; [exact Hs | intros _; now apply Hh].
    + split; [|discriminate].
      simpl. rewrite Hs. specialize (Hh eq_refl).
      destruct (sub_non_slug true l); [reflexivity|].
      cbn. now rewrite Hh.
Qed.

Lemma single_underscores_app_r (a b : list ascii) :
  single_underscores (a ++ b) = true -> single_underscores b = true.
Proof.
  induction a as [|c a IH]; simpl; [trivial|].
  intros H. apply andb_true_iff in H. now apply IH.
Qed.

Lemma single_underscores_app_l (a b : list ascii) :
  single_underscores (a ++ b) = true -> single_underscores a = true.
Proof.
  induction a as [|c a IH]; simpl; [trivial|].
  intros H. apply andb_true_iff in H as [H1 H2].
  rewrite (IH H2), andb_true_r.
  destruct a as [|c' a]; [reflexivity | exact H1].
Qed.

Lemma strip_by_parts (p : ascii -> bool) (l : list ascii) :
  exists pre suf, l = pre ++ strip_by p l ++ suf.
Proof.
  unfold strip_by.
  destruct (dropwhile_suffix p l) as [pre Hpre].
  destruct (rdropwhile_prefix p (dropwhile p l)) as [suf Hsuf].
  exists pre, suf. now rewrite <- Hsuf.
Qed.

Lemma strip_underscores_shape (l : list ascii) :
  forallb is_identifier_char l = true ->
  single_underscores l = true ->
  strip_underscores l <> [] ->
  well_shaped (strip_underscores l).
Proof.
  intros Hc Hs Hne. unfold well_shaped.
  destruct (strip_by_parts is_underscore l) as (pre & suf & Hl).
  fold (strip_underscores l) in Hl.
  split; [exact Hne|]. split.
  { rewrite Hl, !forallb_app in Hc.
    apply andb_true_iff in Hc as [_ Hc]. now apply andb_true_iff in Hc. }
  split.
  { rewrite Hl in Hs. apply single_underscores_app_r in Hs.
    now apply single_underscores_app_l in Hs. }
  split.
  - unfold strip_underscores, strip_by in *.
    pose proof (dropwhile_head is_underscore l) as Hh.
    pose proof (rdropwhile_head is_underscore (dropwhile is_underscore l)) as Hr.
    destruct (dropwhile is_underscore l) as [|x d]; [now elim Hne|].
    specialize (Hr Hh).
    destruct (rdropwhile is_underscore (x :: d)); [exact I | now subst].
  - apply rdropwhile_last.
Qed.

(** C10: [_normalize_identifier] never returns an empty string.  When
    lowercasing, collapsing the runs of other characters to underscores and
    trimming the underscores leaves nothing, it returns the literal
    "column"; otherwise it returns what is left, which is non-empty, made of
    small letters, digits and single underscores only, and neither starts nor
    ends with an underscore. *)
Theorem normalize_identifier_shape (value : string) :
  chars (_normalize_identifier value) <> [] /\
  match slug_chars value with
  | [] => _normalize_identifier value = "column"
  | c :: l =>
      chars (_normalize_identifier value) = c :: l /\
      well_shaped (chars (_normalize_identifier value))
  end.
Proof.
  unfold _normalize_identifier.
  destruct (slug_chars value) as [|c l] eqn:E.
  - split; [discriminate | reflexivity].
  - rewrite chars_text_of. split; [discriminate|]. split; [reflexivity|].
    rewrite <- E. unfold slug_chars in *.
    apply strip_underscores_shape.
    + apply sub_non_slug_chars.
    + apply sub_non_slug_single.
    + now rewrite E.
Qed.

(* ------------------------------------------------------------------------- *)
(** ** Masks *)
(* ------------------------------------------------------------------------- *)

Section Masks.
Context {A : Type}.
Implicit Types (f g : A -> bool) (l : list A).

Lemma combine_map {B C} (u : A -> B) (v : A -> C) l :
  combine (map u l) (map v l) = map (fun x => (u x, v x)) l.
Proof. induction l; simpl; congruence. Qed.

Lemma mask_and_map f g l :
  mask_and (map f l) (map g l) = map (fun x => f x && g x) l.
Proof. unfold mask_and. now rewrite combine_map, map_map. Qed.

Lemma mask_or_map f g l :
  mask_or (map f l) (map g l) = map (fun x => f x || g x) l.
Proof. unfold mask_or. now rewrite combine_map, map_map. Qed.

Lemma mask_not_map f l : mask_not (map f l) = map (fun x => negb (f x)) l.
Proof. unfold mask_not. now rewrite map_map. Qed.

Lemma mask_sum_map f l : mask_sum (map f l) = length (filter f l).
Proof.
  unfold mask_sum. induction l as [|x l IH]; simpl; [reflexivity|].
  destruct (f x); simpl; congruence.
Qed.

Lemma select_map {B} f (u : A -> B) l :
  select (map f l) (map u l) = map u (filter f l).
Proof.
  unfold select. rewrite combine_map.
  induction l as [|x l IH]; simpl; [reflexivity|].
  destruct (f x); simpl; congruence.
Qed.

Lemma filter_none_of_weaker f g l :
  (forall x, f x = true -> g x = true) ->
  length (filter g l) = 0 -> length (filter f l) = 0.
Proof.
  intros Hfg. induction l as [|x l IH]; simpl; [trivial|].
  destruct (f x) eqn:Ef.
  - rewrite (Hfg x Ef). discriminate.
  - destruct (g x); [discriminate | exact IH].
Qed.
End Masks.

Create Rewrite HintDb masks.
#[local] Hint Rewrite @mask_and_map @mask_or_map @mask_not_map @combine_map
  @map_map : masks.

(* ------------------------------------------------------------------------- *)
(** ** The Date validator *)
(* ------------------------------------------------------------------------- *)

Lemma to_datetime_ymd_notna (t : string) :
  notna (to_datetime_ymd t) = is_yyyymmdd_date t.
Proof.
  unfold to_datetime_ymd, is_yyyymmdd_date.
  destruct (is_eight_digits t); [|reflexivity].
  now destruct (real_calendar_date _ _ _).
Qed.

Lemma invalid_date_count_text (series : Series) :
  is_datetime64_any_dtype series = false ->
  invalid_date_count (_validate_date_field series)
  = length (filter counted_invalid_date (cells series)).
Proof.
  intros Hd. unfold _validate_date_field, _clean_text_series. rewrite Hd.
  autorewrite with masks. rewrite !mask_sum_map.
  destruct (length (filter _ (cells series)) =? 0) eqn:E0; cbn [invalid_date_count].
  { symmetry. apply Nat.eqb_eq in E0. revert E0.
    apply filter_none_of_weaker. intros v. unfold counted_invalid_date.
    now destruct (clean_value v). }
  match goal with |- context [if ?c then _ else _] => destruct c eqn:E1 end;
    cbn [invalid_date_count].
  { symmetry. apply Nat.eqb_eq in E1. revert E1.
    apply filter_none_of_weaker. intros v. unfold counted_invalid_date, is_placeholder.
    destruct (clean_value v); cbn [notna option_map andb]; [|discriminate].
    intros H. apply andb_true_iff in H. now rewrite (proj1 H). }
  f_equal. apply filter_ext. intros v.
  unfold counted_invalid_date, is_placeholder.
  destruct (clean_value v) as [t|]; cbn [notna option_map andb]; [|reflexivity].
  destruct (mem (upper t) PLACEHOLDER_DATES); cbn [negb andb]; [reflexivity|].
  unfold isna. rewrite to_datetime_ymd_notna. unfold is_yyyymmdd_date.
  destruct (is_eight_digits t); reflexivity.
Qed.



(* ------------------------------------------------------------------------- *)
(** ** The Numeric validator *)
(* ------------------------------------------------------------------------- *)

(** C5: on the series 12, 12.0, abc, the empty text and 1234567890123 with
    [max_digits = 5] the Numeric validator reports one non-numeric value, no
    non-integer value (12.0 is read as a number whose fractional part is
    below the tolerance), one digit overflow (digit characters only are
    counted: 12.0 has three, 1234567890123 has thirteen) and four non-null
    values out of five, that is one null value. *)
Theorem numeric_validator_sample :
  let series := text_series ["12"; "12.0"; "abc"; ""; "1234567890123"] in
  let report := _validate_numeric_field series 5 in
  non_numeric_count report = 1 /\
  non_integer_count report = 0 /\
  digits_overflow_count report = 1 /\
  numeric_non_null_count report = 4 /\
  length (cells series) - numeric_non_null_count report = 1 /\
  option_map is_integral (to_numeric_text "12.0") = Some true /\
  to_numeric_text "abc" = None /\
  digit_length "12.0" = 3 /\
  digit_length "1234567890123" = 13.
Proof. vm_compute. repeat split. Qed.

(* ------------------------------------------------------------------------- *)
(** ** Example values and the Enum validator *)
(* ------------------------------------------------------------------------- *)

Lemma In_firstn {A} (n : nat) (l : list A) (x : A) : In x (firstn n l) -> In x l.
Proof.
  intros H. rewrite <- (firstn_skipn n l). apply in_or_app. now left.
Qed.

Lemma In_dropna {A} (l : list (option A)) (x : A) : In x (dropna l) <-> In (Some x) l.
Proof.
  unfold dropna. rewrite in_flat_map. split.
  - intros ([y|] & Hin & Hx); simpl in Hx; [|contradiction].
    destruct Hx as [->|[]]. exact Hin.
  - intros H. exists (Some x). split; [exact H | now left].
Qed.

Lemma In_sorted_set (l : list string) (x : string) : In x (sorted_set l) <-> In x l.
Proof.
  unfold sorted_set, set_of.
  transitivity (In x (nodup string_dec l)); [|apply nodup_In].
  split; apply Permutation_in; [symmetry|]; apply sorted_perm.
Qed.

(** The examples of a validator: at most [n] of them, sorted, distinct, all
    drawn from the values given, and all of those when fewer than [n] are
    shown. *)
Lemma examples_of_spec (n : nat) (l : list (option string)) :
  length (examples_of n l) <= n /\
  Sorted leb_holds (examples_of n l) /\
  NoDup (examples_of n l) /\
  (forall e, In e (examples_of n l) -> In (Some e) l) /\
  (length (examples_of n l) < n -> forall e, In (Some e) l -> In e (examples_of n l)).
Proof.
  unfold examples_of, take. repeat split.
  - apply firstn_le_length.
  - apply Sorted_firstn. unfold sorted_set.
    apply (sorted_Sorted String.leb String.leb_total).
  - apply NoDup_firstn. unfold sorted_set, set_of.
    apply (Permutation_NoDup (sorted_perm String.leb _)). apply NoDup_nodup.
  - intros e He. apply In_firstn in He.
    apply (proj1 (In_sorted_set _ _)) in He. now apply In_dropna.
  - intros Hlt e He. rewrite firstn_all2.
    + apply In_sorted_set. now apply In_dropna.
    + rewrite length_firstn in Hlt. lia.
Qed.

Lemma mem_In (x : string) (l : list string) : mem x l = true <-> In x l.
Proof.
  unfold mem. rewrite existsb_exists. split.
  - intros (y & Hy & E). apply String.eqb_eq in E. now subst.
  - intros H. exists x. split; [exact H | apply String.eqb_refl].
Qed.

Lemma mem_set_of (x : string) (l : list string) : mem x (set_of l) = mem x l.
Proof.
  apply eq_true_iff_eq. rewrite !mem_In. unfold set_of. apply nodup_In.
Qed.

Lemma clean_value_Some (v : option string) (t : string) :
  clean_value v = Some t <->
  exists raw, v = Some raw /\ strip raw <> "" /\ t = strip raw.
Proof.
  unfold clean_value. destruct v as [raw|].
  - cbv zeta. destruct (String.eqb_spec (strip raw) "") as [E|E]; split.
    + discriminate.
    + intros (r & Hr & Hne & _). injection Hr as <-. contradiction.
    + intros H. injection H as <-. now exists raw.
    + intros (r & Hr & _ & ->). now injection Hr as <-.
  - split; [discriminate | intros (r & Hr & _); discriminate].
Qed.

Lemma enum_examples_source (series : Series) (allowed_values : list string) :
  allowed_values <> [] ->
  forall e,
    In (Some e)
       (select
          (mask_and (map notna (map (option_map upper) (_clean_text_series series)))
             (mask_not
                (map (fun v => match v with
                               | Some u => mem u (set_of (map upper allowed_values))
                               | None => false
                               end)
                     (map (option_map upper) (_clean_text_series series)))))
          (map (option_map upper) (_clean_text_series series)))
    <-> exists raw, In (Some raw) (cells series) /\
                    fails_enum allowed_values raw /\ e = upper (strip raw).
Proof.
  intros _ e. unfold _clean_text_series. autorewrite with masks.
  rewrite select_map, in_map_iff. unfold fails_enum. split.
  - intros (v & Hc & Hin). apply filter_In in Hin as [Hin Hf].
    destruct (clean_value v) as [t|] eqn:Et; [|discriminate].
    apply clean_value_Some in Et as (raw & -> & Hne & ->).
    simpl in Hc, Hf. injection Hc as <-. rewrite mem_set_of in Hf.
    exists raw. repeat split; trivial. now apply negb_true_iff.
  - intros (raw & Hin & (Hne & Hm) & ->).
    assert (Hc : clean_value (Some raw) = Some (strip raw))
      by (apply clean_value_Some; now exists raw).
    exists (Some raw). rewrite Hc. split; [reflexivity|].
    apply filter_In. split; [exact Hin|].
    rewrite Hc. simpl. now rewrite mem_set_of, Hm.
Qed.

(** C7, as the code has it: for a non-empty set of allowed values the Enum
    validator reports at most eight examples, sorted and distinct; each is
    the upper-cased, stripped form of a non-null value of the column that
    fails the case-insensitive membership test, and every such form is
    reported when fewer than eight are. *)
Theorem enum_examples_upper_cased (series : Series) (allowed_values : list string) :
  allowed_values <> [] ->
  let examples :=
    enum_invalid_examples (_validate_enum_field series allowed_values) in
  length examples <= 8 /\
  Sorted leb_holds examples /\
  NoDup examples /\
  (forall e, In e examples ->
             exists raw, In (Some raw) (cells series) /\
                         fails_enum allowed_values raw /\ e = upper (strip raw)) /\
  (length examples < 8 ->
   forall raw, In (Some raw) (cells series) -> fails_enum allowed_values raw ->
               In (upper (strip raw)) examples).
Proof.
  intros Hne. pose proof (enum_examples_source series allowed_values Hne) as Hsrc.
  unfold _validate_enum_field.
  destruct allowed_values as [|a0 al]; [now elim Hne|].
  cbn [is_empty]. set (allowed := a0 :: al) in *.
  set (normalized := map (option_map upper) (_clean_text_series series)) in *.
  set (invalid_mask := mask_and _ _) in *.
  assert (Hnone : mask_sum invalid_mask = 0 ->
                  forall raw, In (Some raw) (cells series) ->
                              fails_enum allowed raw -> False).
  { intros H0 raw Hin Hf.
    assert (Hs : In (Some (upper (strip raw))) (select invalid_mask normalized))
      by (apply Hsrc; now exists raw).
    unfold select, mask_sum in *.
    apply in_map_iff in Hs as ([b x] & _ & Hs). apply filter_In in Hs as [Hs Hb].
    simpl in Hb. subst b. apply in_combine_l in Hs.
    destruct (filter (fun b => b) invalid_mask) eqn:Ef; [|discriminate].
    assert (Hin' : In true (filter (fun b => b) invalid_mask))
      by (apply filter_In; now split).
    now rewrite Ef in Hin'. }
  assert (Hsub : mask_sum invalid_mask <= mask_sum (map notna normalized)).
  { unfold invalid_mask, mask_sum, mask_and.
    generalize (mask_not (map (fun v : option string =>
                                 match v with
                                 | Some u => mem u (set_of (map upper allowed))
                                 | None => false
                                 end) normalized)).
    generalize (map notna normalized). intros m1.
    induction m1 as [|b m1 IH]; intros m2; destruct m2 as [|b2 m2]; simpl; try lia.
    specialize (IH m2). destruct b, b2; simpl; lia. }
  destruct (mask_sum (map notna normalized) =? 0) eqn:E0.
  { apply Nat.eqb_eq in E0. cbn [enum_invalid_examples length].
    repeat split; try constructor; try lia; try contradiction.
    intros _ raw Hin Hf. apply (Hnone ltac:(lia) raw Hin Hf). }
  cbn [enum_invalid_examples].
  destruct (0 <? mask_sum invalid_mask) eqn:E1.
  - destruct (examples_of_spec 8 (select invalid_mask normalized))
      as (H1 & H2 & H3 & H4 & H5).
    repeat split; trivial.
    + intros e He. apply Hsrc. now apply H4.
    + intros Hlt raw Hin Hf. apply (H5 Hlt). apply Hsrc. now exists raw.
  - apply Nat.ltb_ge in E1.
    repeat split; try constructor; cbn [length]; try lia; try contradiction.
    intros _ raw Hin Hf. apply (Hnone ltac:(lia) raw Hin Hf).
Qed.

(** C7 fails as stated: the example reported for the value x is X, which is
    not a raw value of the column. *)
Lemma enum_examples_not_raw :
  enum_invalid_examples (_validate_enum_field (text_series ["x"]) ["Y"; "N"]) = ["X"] /\
  ~ In (Some "X") (cells (text_series ["x"])).
Proof.
  split; [reflexivity|]. simpl. intros [H|[]]. discriminate.
Qed.

Lemma enum_examples_upper_cased_witness :
  ["Y"; "N"] <> [] /\
  length (enum_invalid_examples
            (_validate_enum_field (text_series ["y"; "N"; "x"]) ["Y"; "N"])) <= 8.
Proof.
  split; [discriminate|].
  pose proof (enum_examples_upper_cased (text_series ["y"; "N"; "x"]) ["Y"; "N"]
                ltac:(discriminate)) as P.
  cbv zeta in P. destruct P as [P _]. exact P.
Defined.

(* ------------------------------------------------------------------------- *)
(** ** The schema document parser *)
(* ------------------------------------------------------------------------- *)

Lemma parse_schema_doc_Ok (store : DocStore) (path schema : string) (spec : SchemaSpec) :
  _parse_schema_doc store path schema = Ok spec ->
  exists raw_text,
    read_text store path = Some raw_text /\
    scan_lines (splitlines raw_text) <> [] /\
    spec = build_schema path schema (scan_lines (splitlines raw_text)).
Proof.
  unfold _parse_schema_doc. destruct (read_text store path) as [raw|]; [|discriminate].
  destruct (scan_lines (splitlines raw)) eqn:E; simpl; [discriminate|].
  intros H. injection H as <-. exists raw. now rewrite E.
Qed.

Lemma In_sorted {A} (le : A -> A -> bool) (l : list A) (x : A) :
  In x (sorted le l) <-> In x l.
Proof. split; apply Permutation_in; [symmetry|]; apply sorted_perm. Qed.

Section BuildSchema.
Variables (path schema : string) (declared : list OpenField).

Let spec := build_schema path schema declared.
Let configured := dict_get_default schema [] SCHEMA_OPTIONAL_COLUMNS.

Lemma build_expected_length :
  length (expected_columns spec) = length (fields spec).
Proof. apply length_map. Qed.

Lemma build_required_iff (c : string) :
  In c (required_columns spec) <->
  In c (expected_columns spec) /\ ~ In c configured.
Proof.
  unfold spec, build_schema; cbn [required_columns expected_columns].
  rewrite filter_In, negb_true_iff, <- not_true_iff_false, mem_In. tauto.
Qed.

Lemma build_optional_iff (c : string) :
  In c (optional_columns spec) <-> In c configured.
Proof. apply In_sorted. Qed.

Lemma build_union_iff (c : string) :
  In c (required_columns spec ++ optional_columns spec) <->
  In c (expected_columns spec) \/ In c configured.
Proof.
  rewrite in_app_iff, build_required_iff, build_optional_iff.
  destruct (in_dec string_dec c configured); tauto.
Qed.
End BuildSchema.

(** C1, as the code has it: for a parsed schema there are as many expected
    columns as fields, the required columns are the expected ones that are
    not configured as optional, the optional columns are the configured ones
    whether parsed or not, so the expected columns lie within the union of
    required and optional columns, and the union equals the expected columns
    exactly when every configured optional column is among them. *)
Theorem schema_columns_partition
        (store : DocStore) (path schema : string) (spec : SchemaSpec) :
  _parse_schema_doc store path schema = Ok spec ->
  length (expected_columns spec) = length (fields spec) /\
  incl (required_columns spec) (expected_columns spec) /\
  (forall c, In c (required_columns spec) <->
             In c (expected_columns spec) /\ ~ In c (optional_columns spec)) /\
  (forall c, In c (optional_columns spec) <->
             In c (dict_get_default schema [] SCHEMA_OPTIONAL_COLUMNS)) /\
  incl (expected_columns spec) (required_columns spec ++ optional_columns spec) /\
  ((forall c, In c (required_columns spec ++ optional_columns spec) <->
              In c (expected_columns spec)) <->
   incl (optional_columns spec) (expected_columns spec)).
Proof.
  intros H. apply parse_schema_doc_Ok in H as (raw & _ & _ & ->).
  set (declared := scan_lines (splitlines raw)).
  split; [apply build_expected_length|].
  split; [intros c Hc; now apply build_required_iff in Hc|].
  split; [intros c; rewrite build_required_iff, build_optional_iff; tauto|].
  split; [intros c; apply build_optional_iff|].
  split; [intros c Hc; apply build_union_iff; now left|].
  split.
  - intros Hall c Hc. apply Hall, in_or_app. now right.
  - intros Hincl c. rewrite build_union_iff. split; [|tauto].
    intros [Hc|Hc]; [exact Hc|]. now apply Hincl, build_optional_iff.
Qed.

Lemma schema_columns_partition_witness :
  exists spec,
    _parse_schema_doc (recalls_only doc_without_optional) "docs/RCL.txt" "recalls"
    = Ok spec /\
    length (expected_columns spec) = length (fields spec).
Proof.
  eexists. split; [reflexivity|].
  eapply (schema_columns_partition (recalls_only doc_without_optional)
                                   "docs/RCL.txt" "recalls").
  reflexivity.
Defined.

(** C1 fails as stated: a recalls document that declares neither optional
    column parses, and its optional columns are not among its expected
    columns. *)
Lemma optional_columns_outside_expected :
  exists spec,
    _parse_schema_doc (recalls_only doc_without_optional) "docs/RCL.txt" "recalls"
    = Ok spec /\
    In "do_not_drive" (required_columns spec ++ optional_columns spec) /\
    ~ In "do_not_drive" (expected_columns spec).
Proof.
  eexists. split; [reflexivity|]. split.
  - vm_compute. right. now left.
  - vm_compute. intros [H|[]]. discriminate.
Qed.

Lemma scan_line_names (st : ScanState) (line : string) :
  Forall normalized_name_ok (fields_rev st) ->
  Forall normalized_name_ok (fields_rev (scan_line st line)).
Proof.
  intros Hst. unfold scan_line.
  destruct (contains "FIELDS:" line); [exact Hst|].
  destruct (in_field_section st); [|exact Hst]. cbn [negb].
  destruct (_is_probably_blank_line line); [exact Hst|].
  destruct (FIELD_ROW_PATTERN (chars line)) as [row|].
  - cbn [fields_rev]. constructor; [|exact Hst].
    destruct (String.eqb _ ""); reflexivity.
  - destruct (fields_rev st) as [|cur earlier] eqn:E; [now rewrite E|].
    destruct (String.eqb (strip line) ""); [now rewrite E|].
    cbn [fields_rev]. inversion Hst; subst. now constructor.
Qed.

Lemma scan_lines_names (lines : list string) :
  Forall normalized_name_ok (scan_lines lines).
Proof.
  unfold scan_lines. apply Forall_rev.
  assert (H : forall st, Forall normalized_name_ok (fields_rev st) ->
                         Forall normalized_name_ok
                                (fields_rev (fold_left scan_line lines st))).
  { induction lines as [|line lines IH]; intros st Hst; simpl; [exact Hst|].
    apply IH. now apply scan_line_names. }
  apply H. constructor.
Qed.

Lemma Sorted_map {A B} (R : B -> B -> Prop) (f : A -> B) (l : list A) :
  Sorted (fun a b => R (f a) (f b)) l -> Sorted R (map f l).
Proof.
  induction 1 as [|x l Hs IH Hhd]; simpl; constructor; trivial.
  destruct Hhd; simpl; now constructor.
Qed.

Lemma by_index_total (a b : OpenField) :
  by_index a b = true \/ by_index b a = true.
Proof. unfold by_index. rewrite !N.leb_le. lia. Qed.

(** [sorted] is stable: the elements with a given index keep the order of
    the document. *)
Lemma insert_by_index_filter (i : N) (x : OpenField) (l : list OpenField) :
  filter (fun f => (o_index f =? i)%N) (insert_sorted by_index x l)
  = filter (fun f => (o_index f =? i)%N) (x :: l).
Proof.
  induction l as [|y l IH]; [reflexivity|].
  cbn [insert_sorted]. destruct (by_index x y) eqn:E; [reflexivity|].
  cbn [filter] in *. rewrite IH.
  destruct (N.eqb_spec (o_index x) i) as [Ex|Ex]; [|reflexivity].
  destruct (N.eqb_spec (o_index y) i) as [Ey|Ey]; [|reflexivity].
  unfold by_index in E. apply N.leb_gt in E. lia.
Qed.

Lemma sorted_by_index_stable (i : N) (l : list OpenField) :
  filter (fun f => (o_index f =? i)%N) (sorted by_index l)
  = filter (fun f => (o_index f =? i)%N) l.
Proof.
  induction l as [|x l IH]; [reflexivity|].
  cbn [sorted fold_right]. fold (sorted by_index l).
  rewrite insert_by_index_filter. cbn [filter]. now rewrite IH.
Qed.

Lemma filter_map_comm {A B} (p : B -> bool) (f : A -> B) (l : list A) :
  filter p (map f l) = map f (filter (fun x => p (f x)) l).
Proof.
  induction l as [|x l IH]; simpl; [reflexivity|].
  destruct (p (f x)); simpl; congruence.
Qed.

(** C8, as the code has it: the fields of a parsed schema appear in
    non-decreasing index order; they are the field rows of the document,
    rows of equal index in the order of the document; each normalized name
    is the normalizer's value on the raw name; and the normalized names are
    pairwise distinct exactly when those of the field rows are, since the
    parser neither rejects nor merges a repeated name. *)
Theorem schema_fields_ordered
        (store : DocStore) (path schema : string) (spec : SchemaSpec) :
  _parse_schema_doc store path schema = Ok spec ->
  exists raw_text,
    read_text store path = Some raw_text /\
    let declared := scan_lines (splitlines raw_text) in
    Sorted index_le (fields spec) /\
    (forall i, filter (fun f => (index f =? i)%N) (fields spec)
               = map (normalize_field schema)
                     (filter (fun f => (o_index f =? i)%N) declared)) /\
    Forall (fun f => name f = _normalize_identifier (name_raw f)) (fields spec) /\
    Permutation (map name (fields spec)) (map o_name declared) /\
    (NoDup (map name (fields spec)) <-> NoDup (map o_name declared)).
Proof.
  intros H. apply parse_schema_doc_Ok in H as (raw & Hread & _ & ->).
  exists raw. split; [exact Hread|]. cbv zeta.
  set (declared := scan_lines (splitlines raw)).
  assert (Hperm : Permutation
                    (map name (fields (build_schema path schema declared)))
                    (map o_name declared)).
  { cbn [fields build_schema]. rewrite map_map. cbn [name normalize_field].
    apply Permutation_map. symmetry. apply sorted_perm. }
  split; [|split; [|split; [|split]]].
  - cbn [fields build_schema]. apply Sorted_map.
    generalize (sorted_Sorted by_index by_index_total declared).
    apply Sorted_ind with (P := fun l => Sorted _ l); [constructor|].
    intros a l _ IH Hhd. constructor; [exact IH|].
    destruct Hhd; constructor. unfold index_le. cbn [index normalize_field].
    now apply N.leb_le.
  - intros i. cbn [fields build_schema]. rewrite filter_map_comm.
    cbn [index normalize_field]. now rewrite sorted_by_index_stable.
  - cbn [fields build_schema]. apply Forall_map.
    apply Forall_forall. intros f Hf. cbn [name name_raw normalize_field].
    apply In_sorted in Hf.
    exact (proj1 (Forall_forall _ _) (scan_lines_names (splitlines raw)) f Hf).
  - exact Hperm.
  - split; apply Permutation_NoDup; [exact Hperm | now symmetry].
Qed.

Lemma schema_fields_ordered_witness :
  exists spec,
    _parse_schema_doc (recalls_only doc_with_repeated_name) "docs/RCL.txt" "recalls"
    = Ok spec /\
    exists raw_text,
      read_text (recalls_only doc_with_repeated_name) "docs/RCL.txt" = Some raw_text /\
      Sorted index_le (fields spec).
Proof.
  eexists. split; [reflexivity|].
  destruct (schema_fields_ordered (recalls_only doc_with_repeated_name)
                                  "docs/RCL.txt" "recalls" _ eq_refl)
    as (raw & Hread & Hs & _).
  exists raw. split; [exact Hread | exact Hs].
Defined.

(** C8 fails as stated: a document whose two rows repeat a name parses, and
    the normalized names of its fields are not pairwise distinct. *)
Lemma repeated_name_not_unique :
  exists spec,
    _parse_schema_doc (recalls_only doc_with_repeated_name) "docs/RCL.txt" "recalls"
    = Ok spec /\
    map name (fields spec) = ["maketxt"; "maketxt"] /\
    ~ NoDup (map name (fields spec)).
Proof.
  eexists. split; [reflexivity|]. split; [reflexivity|].
  intros H. vm_compute in H. inversion H as [|? ? Hn _]. apply Hn. now left.
Qed.

(* ------------------------------------------------------------------------- *)
(** ** The schema matcher *)
(* ------------------------------------------------------------------------- *)



Section Detection.
Variable columns : list string.



End Detection.

(* ------------------------------------------------------------------------- *)
(** ** The report builder: stages *)
(* ------------------------------------------------------------------------- *)

Lemma bind_Ok {A B} (r : result A) (k : A -> result B) (b : B) :
  bind r k = Ok b -> exists a, r = Ok a /\ k a = Ok b.
Proof. destruct r as [a|e]; simpl; [now exists a | discriminate]. Qed.

(** A report is assembled from the outcome of three stages. *)
Lemma collect_schema_report_stages
      (info : CatalogInfo) (df : DataFrame) (dataset_name : string)
      (schema_name : option string) (report : Report) :
  collect_schema_report info df dataset_name schema_name = Ok report ->
  exists checked id model_year,
    check_resolved (schemas info) df
                   (fst (fst (resolve_schema (schemas info) df schema_name)))
                   (catalog_warnings info) = Ok checked /\
    check_id_column df = Ok id /\
    check_model_year df = Ok model_year /\
    report_schema_name report = fst (fst (resolve_schema (schemas info) df schema_name)) /\
    schema_match_score report = snd (fst (resolve_schema (schemas info) df schema_name)) /\
    schema_doc_path report = s_schema_doc_path (fst checked) /\
    missing_columns report = s_missing_columns (fst checked) /\
    unexpected_extra_columns report = s_unexpected_extra_columns (fst checked) /\
    column_order_matches_expected report
    = s_column_order_matches_expected (fst checked) /\
    model_year_column_found report = option_map fst model_year /\
    model_year_out_of_range_count report = option_map snd model_year /\
    findings report = model_year_warning model_year (snd checked).
Proof.
  unfold collect_schema_report. intros H.
  apply bind_Ok in H as (checked & Hc & H).
  apply bind_Ok in H as (id & Hid & H).
  apply bind_Ok in H as (my & Hmy & H).
  injection H as <-. exists checked, id, my. now repeat split.
Qed.

Lemma schema_spec_of_named (catalog : Dict SchemaSpec) (n : string) (spec : SchemaSpec) :
  n <> "" -> dict_get n catalog = Some spec ->
  schema_spec_of catalog (Some n) = Some spec.
Proof.
  intros Hn Hg. unfold schema_spec_of, truthy.
  destruct (String.eqb_spec n ""); [contradiction | exact Hg].
Qed.



(* ------------------------------------------------------------------------- *)
(** ** Dictionaries, frames and the catalog *)
(* ------------------------------------------------------------------------- *)

Lemma dict_get_set {V} (k k' : string) (v : V) (d : Dict V) :
  dict_get k (dict_set k' v d) = if String.eqb k k' then Some v else dict_get k d.
Proof.
  induction d as [|[k0 v0] d IH]; simpl.
  - now destruct (String.eqb k k').
  - destruct (String.eqb_spec k' k0) as [->|Hne]; simpl.
    + now destruct (String.eqb k k0).
    + destruct (String.eqb_spec k k0) as [->|Hne'].
      * destruct (String.eqb_spec k0 k'); [now subst | reflexivity].
      * exact IH.
Qed.









(* ------------------------------------------------------------------------- *)
(** ** The report builder: messages *)
(* ------------------------------------------------------------------------- *)

Section FindingsUpdates.
Variables (b : bool) (m : Message) (d : IssueCounts) (f : Findings).

Lemma warnings_warn_if : warnings (warn_if b m f) = warnings f ++ messages_if b m.
Proof. destruct b; simpl; now rewrite ?app_nil_r. Qed.
Lemma errors_warn_if : errors (warn_if b m f) = errors f.
Proof. now destruct b. Qed.
Lemma warnings_fail_if : warnings (fail_if b m f) = warnings f.
Proof. now destruct b. Qed.
Lemma errors_fail_if : errors (fail_if b m f) = errors f ++ messages_if b m.
Proof. destruct b; simpl; now rewrite ?app_nil_r. Qed.
Lemma warnings_count_issues : warnings (count_issues d f) = warnings f.
Proof. reflexivity. Qed.
Lemma errors_count_issues : errors (count_issues d f) = errors f.
Proof. reflexivity. Qed.
Lemma warnings_warn : warnings (warn m f) = warnings f ++ messages_if true m.
Proof. reflexivity. Qed.
Lemma errors_warn : errors (warn m f) = errors f.
Proof. reflexivity. Qed.
Lemma warnings_fail : warnings (fail m f) = warnings f.
Proof. reflexivity. Qed.
Lemma errors_fail : errors (fail m f) = errors f ++ messages_if true m.
Proof. reflexivity. Qed.
Lemma field_checks_warn_if : field_checks (warn_if b m f) = field_checks f.
Proof. now destruct b. Qed.
Lemma field_checks_fail_if : field_checks (fail_if b m f) = field_checks f.
Proof. now destruct b. Qed.
Lemma field_checks_count_issues : field_checks (count_issues d f) = field_checks f.
Proof. reflexivity. Qed.
Lemma field_checks_warn : field_checks (warn m f) = field_checks f.
Proof. reflexivity. Qed.
Lemma field_checks_fail : field_checks (fail m f) = field_checks f.
Proof. reflexivity. Qed.
End FindingsUpdates.

Create Rewrite HintDb findings.
#[local] Hint Rewrite warnings_warn_if errors_warn_if warnings_fail_if
  errors_fail_if warnings_count_issues errors_count_issues warnings_warn
  errors_warn warnings_fail errors_fail field_checks_warn_if
  field_checks_fail_if field_checks_count_issues field_checks_warn
  field_checks_fail : findings.

Ltac same_field_checks :=
  cbn [fst snd]; autorewrite with findings; reflexivity.

Lemma Forall_messages_if (P : Message -> Prop) (b : bool) (m : Message) :
  P m -> Forall P (messages_if b m).
Proof. destruct b; simpl; now repeat constructor. Qed.

Lemma In_messages_if (n : nat) (m : Message) :
  0 < n -> In m (messages_if (0 <? n) m).
Proof. intros H. apply Nat.ltb_lt in H. rewrite H. now left. Qed.

Lemma extends_with_refl (f : Findings) : extends_with f f [] [].
Proof. unfold extends_with. now rewrite !app_nil_r. Qed.

Lemma extends_with_trans (f1 f2 f3 : Findings) (w1 e1 w2 e2 : list Message) :
  extends_with f1 f2 w1 e1 -> extends_with f2 f3 w2 e2 ->
  extends_with f1 f3 (w1 ++ w2) (e1 ++ e2).
Proof.
  intros (Hw1 & He1 & Hkw1 & Hke1) (Hw2 & He2 & Hkw2 & Hke2).
  unfold extends_with. rewrite Hw2, He2, Hw1, He1, !app_assoc.
  repeat split; apply Forall_app; now split.
Qed.

Ltac solve_extends :=
  unfold extends_with; cbn [fst snd]; autorewrite with findings;
  repeat change (messages_if false ?m) with (@nil Message);
  rewrite <- ?app_assoc, ?app_nil_r;
  repeat split;
  repeat (apply Forall_app; split);
  try (apply Forall_messages_if; reflexivity);
  try constructor.

Lemma check_number_spec
      (c : string) (field : FieldSpec) (sel : Selection)
      (st st' : Findings * ColumnReport) :
  check_number c field sel st = Ok st' ->
  exists w e,
    extends_with (fst st) (fst st') w e /\
    field_checks (fst st') = field_checks (fst st) /\
    forall series,
      sel = OneSeries series -> type field = "NUMBER" ->
      let r := _validate_numeric_field series (size field) in
      (0 < non_numeric_count r -> In (NonNumericValues c (non_numeric_count r)) e) /\
      (0 < non_integer_count r -> In (NonIntegerValues c (non_integer_count r)) w) /\
      (0 < digits_overflow_count r ->
       In (DigitsOverflow c (digits_overflow_count r) (size field)) w).
Proof.
  unfold check_number.
  destruct (String.eqb_spec (type field) "NUMBER") as [Ht|Ht].
  - destruct sel as [series|cols]; cbn [for_text bind]; [|discriminate].
    intros H. injection H as <-.
    set (r := _validate_numeric_field series (size field)).
    exists (messages_if (0 <? non_integer_count r)
                        (NonIntegerValues c (non_integer_count r))
            ++ messages_if (0 <? digits_overflow_count r)
                           (DigitsOverflow c (digits_overflow_count r) (size field))),
           (messages_if (0 <? non_numeric_count r)
                        (NonNumericValues c (non_numeric_count r))).
    split; [solve_extends|]. split; [same_field_checks|].
    intros s Hs _. injection Hs as <-. fold r. cbv zeta.
    repeat split; intros Hpos; [| apply in_or_app; left | apply in_or_app; right];
      now apply In_messages_if.
  - intros H. injection H as <-. exists [], [].
    split; [apply extends_with_refl|]. split; [reflexivity|].
    intros s _ Hty. contradiction.
Qed.

Lemma check_date_spec
      (c : string) (field : FieldSpec) (sel : Selection)
      (st st' : Findings * ColumnReport) :
  check_date c field sel st = Ok st' ->
  exists w e,
    extends_with (fst st) (fst st') w e /\
    field_checks (fst st') = field_checks (fst st) /\
    forall series,
      sel = OneSeries series -> is_date field = true ->
      let r := _validate_date_field series in
      (0 < invalid_date_count r -> In (InvalidDates c (invalid_date_count r)) e) /\
      (0 < placeholder_zero_count r ->
       In (PlaceholderZeroDates c (placeholder_zero_count r)) w).
Proof.
  unfold check_date. destruct (is_date field) eqn:Hd.
  - destruct sel as [series|cols]; cbn [for_text bind]; [|discriminate].
    intros H. injection H as <-.
    set (r := _validate_date_field series).
    exists (messages_if (0 <? placeholder_zero_count r)
                        (PlaceholderZeroDates c (placeholder_zero_count r))),
           (messages_if (0 <? invalid_date_count r)
                        (InvalidDates c (invalid_date_count r))).
    split; [solve_extends|]. split; [same_field_checks|].
    intros s Hs _. injection Hs as <-. fold r. cbv zeta.
    split; intros Hpos; now apply In_messages_if.
  - intros H. injection H as <-. exists [], [].
    split; [apply extends_with_refl|]. split; [reflexivity|].
    intros s _ Hty. discriminate.
Qed.

Lemma check_char_spec
      (schema c : string) (overrides : Dict N) (field : FieldSpec) (sel : Selection)
      (st st' : Findings * ColumnReport) :
  check_char schema c overrides field sel st = Ok st' ->
  exists w e,
    extends_with (fst st) (fst st') w e /\
    field_checks (fst st') = field_checks (fst st) /\
    forall series,
      sel = OneSeries series -> type field = "CHAR" ->
      let allowed := dict_get_default c (size field) overrides in
      let r := _validate_char_length series allowed (is_date field) in
      let en := _validate_enum_field series (_allowed_values_for_field schema field) in
      (0 < too_long_count r ->
       (allowed = size field ->
        In (LengthOverflow c (too_long_count r) allowed) e) /\
       (allowed <> size field ->
        In (LegacyLengthOverflow c (too_long_count r) (size field) allowed) w)) /\
      (0 < invalid_value_count en ->
       In (OutsideDocumentedCodes c (invalid_value_count en)) w).
Proof.
  unfold check_char.
  destruct (String.eqb_spec (type field) "CHAR") as [Ht|Ht].
  - destruct sel as [series|cols]; cbn [for_text bind]; [|discriminate].
    intros H. injection H as <-.
    set (allowed := dict_get_default c (size field) overrides).
    set (r := _validate_char_length series allowed (is_date field)).
    set (en := _validate_enum_field series (_allowed_values_for_field schema field)).
    exists (messages_if ((0 <? too_long_count r) && negb (allowed =? size field)%N)
                        (LegacyLengthOverflow c (too_long_count r) (size field) allowed)
            ++ messages_if (0 <? invalid_value_count en)
                           (OutsideDocumentedCodes c (invalid_value_count en))),
           (messages_if ((0 <? too_long_count r) && (allowed =? size field)%N)
                        (LengthOverflow c (too_long_count r) allowed)).
    split.
    { destruct (0 <? too_long_count r); destruct (allowed =? size field)%N;
        cbn [negb andb]; solve_extends. }
    split.
    { destruct (0 <? too_long_count r); destruct (allowed =? size field)%N;
        cbn [negb andb]; same_field_checks. }
    intros s Hs _. injection Hs as <-. fold allowed r en. cbv zeta.
    split.
    + intros Hpos. apply Nat.ltb_lt in Hpos. rewrite Hpos. cbn [andb].
      split; intros Ha.
      * apply N.eqb_eq in Ha. rewrite Ha. now left.
      * apply N.eqb_neq in Ha. rewrite Ha. apply in_or_app. left. now left.
    + intros Hpos. apply in_or_app. right. now apply In_messages_if.
  - intros H. injection H as <-. exists [], [].
    split; [apply extends_with_refl|]. split; [reflexivity|].
    intros s _ Hty. contradiction.
Qed.

Lemma column_messages_mono
      (schema c : string) (overrides : Dict N) (field : FieldSpec) (series : Series)
      (W E W' E' : list Message) :
  incl W W' -> incl E E' ->
  column_messages schema c overrides field series W E ->
  column_messages schema c overrides field series W' E'.
Proof.
  intros HW HE (Hn & Hd & Hc). unfold column_messages. cbv zeta in *.
  split; [|split].
  - intros Ht. destruct (Hn Ht) as (H1 & H2 & H3).
    repeat split; intros Hp; [apply HE, H1 | apply HW, H2 | apply HW, H3]; exact Hp.
  - intros Ht. destruct (Hd Ht) as (H1 & H2).
    split; intros Hp; [apply HE, H1 | apply HW, H2]; exact Hp.
  - intros Ht. destruct (Hc Ht) as (H1 & H2). split.
    + intros Hp. destruct (H1 Hp) as (Ha & Hb).
      split; intros Hal; [apply HE, Ha | apply HW, Hb]; exact Hal.
    + intros Hp. apply HW, H2, Hp.
Qed.

Lemma dict_item_Ok {V} (k : string) (d : Dict V) (v : V) :
  dict_item k d = Ok v -> dict_get k d = Some v.
Proof.
  unfold dict_item. destruct (dict_get k d); [|discriminate].
  intros H. now injection H as ->.
Qed.

Lemma check_column_spec
      (df : DataFrame) (schema : string) (spec : SchemaSpec) (overrides : Dict N)
      (f f' : Findings) (c : string) :
  check_column df schema spec overrides f c = Ok f' ->
  exists w e,
    extends_with f f' w e /\
    forall field series,
      dict_get c (field_map spec) = Some field ->
      getitem df c = Ok (OneSeries series) ->
      column_messages schema c overrides field series w e.
Proof.
  unfold check_column. intros H.
  apply bind_Ok in H as (field0 & Hfield & H). apply dict_item_Ok in Hfield.
  apply bind_Ok in H as (sel & Hsel & H).
  apply bind_Ok in H as (st1 & H1 & H).
  apply bind_Ok in H as (st2 & H2 & H).
  apply bind_Ok in H as (st3 & H3 & H).
  injection H as <-.
  apply check_number_spec in H1 as (w1 & e1 & Hx1 & _ & Hm1).
  apply check_date_spec in H2 as (w2 & e2 & Hx2 & _ & Hm2).
  apply check_char_spec in H3 as (w3 & e3 & Hx3 & _ & Hm3).
  cbn [fst] in Hx1.
  exists ((w1 ++ w2) ++ w3), ((e1 ++ e2) ++ e3). split.
  - pose proof (extends_with_trans _ _ _ _ _ _ _
                  (extends_with_trans _ _ _ _ _ _ _ Hx1 Hx2) Hx3) as Hx.
    exact Hx.
  - intros field series Hf Hg. rewrite Hfield in Hf. injection Hf as ->.
    rewrite Hsel in Hg. injection Hg as ->.
    unfold column_messages. cbv zeta.
    split; [|split].
    + intros Ht. destruct (Hm1 series eq_refl Ht) as (A & B & C).
      repeat split; intros Hp;
        [ apply in_or_app; left; apply in_or_app; left; now apply A
        | apply in_or_app; left; apply in_or_app; left; now apply B
        | apply in_or_app; left; apply in_or_app; left; now apply C ].
    + intros Ht. destruct (Hm2 series eq_refl Ht) as (A & B).
      split; intros Hp;
        [ apply in_or_app; left; apply in_or_app; right; now apply A
        | apply in_or_app; left; apply in_or_app; right; now apply B ].
    + intros Ht. destruct (Hm3 series eq_refl Ht) as (A & B). split.
      * intros Hp. destruct (A Hp) as (A1 & A2).
        split; intros Hal; apply in_or_app; right; [now apply A1 | now apply A2].
      * intros Hp. apply in_or_app; right. now apply B.
Qed.

Lemma for_each_columns_spec
      (df : DataFrame) (schema : string) (spec : SchemaSpec) (overrides : Dict N)
      (l : list string) (f f' : Findings) :
  for_each (check_column df schema spec overrides) l f = Ok f' ->
  exists w e,
    extends_with f f' w e /\
    forall c, In c l ->
      forall field series,
        dict_get c (field_map spec) = Some field ->
        getitem df c = Ok (OneSeries series) ->
        column_messages schema c overrides field series w e.
Proof.
  revert f. induction l as [|x l IH]; intros f; cbn [for_each].
  - intros H. injection H as <-. exists [], [].
    split; [apply extends_with_refl | intros c []].
  - intros H. apply bind_Ok in H as (f1 & Hstep & Hrest).
    apply check_column_spec in Hstep as (w1 & e1 & Hx1 & Hm1).
    apply IH in Hrest as (w2 & e2 & Hx2 & Hm2).
    exists (w1 ++ w2), (e1 ++ e2).
    split; [now apply (extends_with_trans f f1 f')|].
    intros c [<-|Hin] field series Hf Hg.
    + apply (column_messages_mono _ _ _ _ _ w1 e1);
        [apply incl_appl, incl_refl | apply incl_appl, incl_refl | now apply Hm1].
    + apply (column_messages_mono _ _ _ _ _ w2 e2);
        [apply incl_appr, incl_refl | apply incl_appr, incl_refl | now apply (Hm2 c)].
Qed.

Lemma is_nonempty_true {A} (l : list A) : l <> [] -> is_nonempty l = true.
Proof. destruct l; [intros H; now elim H | reflexivity]. Qed.

Lemma check_against_schema_spec
      (df : DataFrame) (n : string) (spec : SchemaSpec) (f : Findings)
      (checked : Structure * Findings) :
  check_against_schema df n spec f = Ok checked ->
  s_missing_columns (fst checked) = missing_required_of df spec /\
  s_unexpected_extra_columns (fst checked) = unexpected_extra_of df spec /\
  s_column_order_matches_expected (fst checked) = Some (order_matches df spec) /\
  exists w e,
    extends_with f (snd checked) w e /\
    (missing_required_of df spec <> [] ->
     In (MissingRequiredColumns n (missing_required_of df spec)) e) /\
    (unexpected_extra_of df spec <> [] ->
     In (UnexpectedExtraColumns (unexpected_extra_of df spec)) w) /\
    (order_matches df spec = false -> In ColumnOrderDiffers w) /\
    forall c, In c (present_expected_of df spec) ->
      forall field series,
        dict_get c (field_map spec) = Some field ->
        getitem df c = Ok (OneSeries series) ->
        column_messages n c (dict_get_default n [] SCHEMA_LENGTH_OVERRIDES)
                        field series w e.
Proof.
  unfold check_against_schema. intros H.
  apply bind_Ok in H as (f' & Hloop & H). injection H as <-. cbn [fst snd].
  repeat split.
  apply for_each_columns_spec in Hloop as (w2 & e2 & Hx2 & Hm2).
  set (m1 := MissingRequiredColumns n (missing_required_of df spec)) in *.
  set (m2 := UnexpectedExtraColumns (unexpected_extra_of df spec)) in *.
  set (b1 := is_nonempty (missing_required_of df spec)) in *.
  set (b2 := is_nonempty (unexpected_extra_of df spec)) in *.
  set (b3 := negb (order_matches df spec)) in *.
  assert (Hx1 : extends_with f
                  (warn_if b3 ColumnOrderDiffers (warn_if b2 m2 (fail_if b1 m1 f)))
                  (messages_if b2 m2 ++ messages_if b3 ColumnOrderDiffers)
                  (messages_if b1 m1))
    by solve_extends.
  exists ((messages_if b2 m2 ++ messages_if b3 ColumnOrderDiffers) ++ w2),
         (messages_if b1 m1 ++ e2).
  split; [exact (extends_with_trans _ _ _ _ _ _ _ Hx1 Hx2)|].
  split; [|split; [|split]].
  - intros Hne. apply in_or_app. left. unfold b1.
    rewrite (is_nonempty_true _ Hne). now left.
  - intros Hne. apply in_or_app. left. apply in_or_app. left. unfold b2.
    rewrite (is_nonempty_true _ Hne). now left.
  - intros Ho. apply in_or_app. left. apply in_or_app. right. unfold b3.
    rewrite Ho. now left.
  - intros c Hc field series Hf Hg.
    apply (column_messages_mono _ _ _ _ _ w2 e2);
      [apply incl_appr, incl_refl | apply incl_appr, incl_refl | now apply (Hm2 c)].
Qed.

Lemma check_resolved_extends
      (catalog : Dict SchemaSpec) (df : DataFrame) (detected : option string)
      (f : Findings) (checked : Structure * Findings) :
  check_resolved catalog df detected f = Ok checked ->
  exists w e, extends_with f (snd checked) w e.
Proof.
  unfold check_resolved.
  destruct detected as [n|]; [destruct (schema_spec_of catalog (Some n)) as [spec|]|].
  - intros H. apply check_against_schema_spec in H as (_ & _ & _ & w & e & Hx & _).
    now exists w, e.
  - intros H. injection H as <-. cbn [snd without_schema].
    exists (messages_if (truthy (Some n) && negb (dict_has n catalog))
                        (SchemaNotAvailable n)), [].
    solve_extends.
  - intros H. injection H as <-. cbn [snd without_schema].
    exists (messages_if true NoConfidentMatch), []. solve_extends.
Qed.

Lemma catalog_warnings_kinds (info : CatalogInfo) :
  extends_with no_findings (catalog_warnings info)
               (warnings (catalog_warnings info)) [].
Proof.
  unfold catalog_warnings.
  assert (H : forall l f w, extends_with no_findings f w [] ->
                extends_with no_findings
                  (fold_left (fun f failed =>
                                warn (CouldNotParseSchemaDoc (fst failed) (snd failed)) f)
                             l f)
                  (warnings (fold_left (fun f failed =>
                                warn (CouldNotParseSchemaDoc (fst failed) (snd failed)) f)
                             l f)) []).
  { induction l as [|x l IH]; intros f w Hx; cbn [fold_left].
    - destruct Hx as (Hw & He & Hkw & Hke). cbn [warnings errors no_findings app] in *.
      unfold extends_with. cbn [warnings errors no_findings app].
      repeat split; trivial. now rewrite Hw.
    - apply (IH _ (w ++ [CouldNotParseSchemaDoc (fst x) (snd x)])).
      destruct Hx as (Hw & He & Hkw & Hke). cbn [warnings errors no_findings app] in *.
      unfold extends_with. cbn [warnings errors no_findings app warn].
      repeat split; trivial; [now rewrite Hw|].
      apply Forall_app. split; [exact Hkw | now repeat constructor]. }
  apply (H _ _ []). apply extends_with_refl.
Qed.

Lemma model_year_warning_extends (model_year : option (string * nat)) (f : Findings) :
  exists w, extends_with f (model_year_warning model_year f) w [] /\
            forall col k, model_year = Some (col, k) -> 0 < k ->
                          In (ModelYearOutOfRange col k) w.
Proof.
  unfold model_year_warning. destruct model_year as [[col k]|].
  - exists (messages_if (0 <? k) (ModelYearOutOfRange col k)).
    split; [solve_extends|].
    intros col' k' H Hp. injection H as <- <-. now apply In_messages_if.
  - exists []. split; [apply extends_with_refl | discriminate].
Qed.

Lemma report_kinds
      (info : CatalogInfo) (df : DataFrame) (dataset_name : string)
      (schema_name : option string) (report : Report) :
  collect_schema_report info df dataset_name schema_name = Ok report ->
  Forall (fun m => is_error_message m = true) (report_errors report) /\
  Forall (fun m => is_error_message m = false) (report_warnings report).
Proof.
  intros H. apply collect_schema_report_stages in H
    as (checked & id & my & Hc & _ & _ & _ & _ & _ & _ & _ & _ & _ & _ & Hf).
  apply check_resolved_extends in Hc as (w1 & e1 & Hx1).
  destruct (model_year_warning_extends my (snd checked)) as (w2 & Hx2 & _).
  pose proof (extends_with_trans _ _ _ _ _ _ _
                (extends_with_trans _ _ _ _ _ _ _ (catalog_warnings_kinds info) Hx1)
                Hx2) as (Hw & He & Hkw & Hke).
  unfold report_errors, report_warnings. rewrite Hf, Hw, He. now split.
Qed.

(** What a report holds once a schema was matched and checked. *)
Lemma matched_report_messages
      (info : CatalogInfo) (df : DataFrame) (dataset_name : string)
      (schema_name : option string) (report : Report)
      (n : string) (spec : SchemaSpec) :
  collect_schema_report info df dataset_name schema_name = Ok report ->
  report_schema_name report = Some n -> n <> "" ->
  dict_get n (schemas info) = Some spec ->
  missing_columns report = missing_required_of df spec /\
  unexpected_extra_columns report = unexpected_extra_of df spec /\
  column_order_matches_expected report = Some (order_matches df spec) /\
  (missing_required_of df spec <> [] ->
   In (MissingRequiredColumns n (missing_required_of df spec)) (report_errors report)) /\
  (unexpected_extra_of df spec <> [] ->
   In (UnexpectedExtraColumns (unexpected_extra_of df spec)) (report_warnings report)) /\
  (order_matches df spec = false -> In ColumnOrderDiffers (report_warnings report)) /\
  forall c, In c (present_expected_of df spec) ->
    forall field series,
      dict_get c (field_map spec) = Some field ->
      getitem df c = Ok (OneSeries series) ->
      column_messages n c (dict_get_default n [] SCHEMA_LENGTH_OVERRIDES)
                      field series (report_warnings report) (report_errors report).
Proof.
  intros H Hname Hne Hg. apply collect_schema_report_stages in H
    as (checked & id & my & Hc & _ & _ & Hn & _ & _ & Hmis & Hunx & Hord & _ & _ & Hf).
  rewrite Hname in Hn. rewrite <- Hn in Hc.
  unfold check_resolved in Hc. rewrite (schema_spec_of_named _ _ _ Hne Hg) in Hc.
  apply check_against_schema_spec in Hc
    as (Hs1 & Hs2 & Hs3 & w1 & e1 & Hx1 & Hm1 & Hm2 & Hm3 & Hcols).
  destruct (model_year_warning_extends my (snd checked)) as (w2 & Hx2 & _).
  pose proof (extends_with_trans _ _ _ _ _ _ _ Hx1 Hx2) as (Hw & He & _ & _).
  assert (HW : incl w1 (report_warnings report)).
  { unfold report_warnings. rewrite Hf, Hw.
    apply incl_appr, incl_appl, incl_refl. }
  assert (HE : incl e1 (report_errors report)).
  { unfold report_errors. rewrite Hf, He.
    apply incl_appr, incl_appl, incl_refl. }
  rewrite Hmis, Hunx, Hord.
  split; [exact Hs1|]. split; [exact Hs2|]. split; [exact Hs3|].
  split; [intros Hp; now apply HE, Hm1|].
  split; [intros Hp; now apply HW, Hm2|].
  split; [intros Hp; now apply HW, Hm3|].
  intros c Hin field series Hfield Hget.
  apply (column_messages_mono _ _ _ _ _ w1 e1); [exact HW | exact HE |].
  now apply (Hcols c).
Qed.

Lemma model_year_report_warning
      (info : CatalogInfo) (df : DataFrame) (dataset_name : string)
      (schema_name : option string) (report : Report) (col : string) (k : nat) :
  collect_schema_report info df dataset_name schema_name = Ok report ->
  model_year_column_found report = Some col ->
  model_year_out_of_range_count report = Some k -> 0 < k ->
  In (ModelYearOutOfRange col k) (report_warnings report).
Proof.
  intros H Hcol Hk Hp. apply collect_schema_report_stages in H
    as (checked & id & my & _ & _ & _ & _ & _ & _ & _ & _ & _ & Hc & Ho & Hf).
  destruct (model_year_warning_extends my (snd checked)) as (w2 & (Hw & _) & Hin).
  unfold report_warnings. rewrite Hf, Hw. apply in_or_app. right.
  apply Hin; [|exact Hp].
  destruct my as [[col' k']|]; [|now rewrite Hcol in Hc].
  rewrite Hcol in Hc. rewrite Hk in Ho. simpl in Hc, Ho. congruence.
Qed.

(** C6, as the code has it: for a dataset checked against a matched schema,
    missing required columns, non-numeric values of a numeric field, invalid
    dates, and length overflow of a character field whose allowed maximum
    is its documented size (no legacy override, or one equal to that size)
    each have their message among the errors; non-integer values, digit
    overflow, placeholder dates, length overflow against a legacy maximum
    that differs from the documented size, values outside the documented
    codes, unexpected extra columns, a differing column order and model
    years out of range each have theirs among the warnings; and no kind of
    message is ever found in the other list. *)
Theorem report_message_severity
        (info : CatalogInfo) (df : DataFrame) (dataset_name : string)
        (schema_name : option string) (report : Report)
        (n : string) (spec : SchemaSpec) :
  collect_schema_report info df dataset_name schema_name = Ok report ->
  report_schema_name report = Some n -> n <> "" ->
  dict_get n (schemas info) = Some spec ->
  missing_columns report = missing_required_of df spec /\
  unexpected_extra_columns report = unexpected_extra_of df spec /\
  column_order_matches_expected report = Some (order_matches df spec) /\
  (missing_columns report <> [] ->
   In (MissingRequiredColumns n (missing_columns report)) (report_errors report)) /\
  (unexpected_extra_columns report <> [] ->
   In (UnexpectedExtraColumns (unexpected_extra_columns report))
      (report_warnings report)) /\
  (column_order_matches_expected report = Some false ->
   In ColumnOrderDiffers (report_warnings report)) /\
  (forall c, In c (present_expected_of df spec) ->
     forall field series,
       dict_get c (field_map spec) = Some field ->
       getitem df c = Ok (OneSeries series) ->
       column_messages n c (dict_get_default n [] SCHEMA_LENGTH_OVERRIDES)
                       field series (report_warnings report) (report_errors report)) /\
  (forall col k,
     model_year_column_found report = Some col ->
     model_year_out_of_range_count report = Some k -> 0 < k ->
     In (ModelYearOutOfRange col k) (report_warnings report)) /\
  Forall (fun m => is_error_message m = true) (report_errors report) /\
  Forall (fun m => is_error_message m = false) (report_warnings report).
Proof.
  intros H Hname Hne Hg.
  destruct (matched_report_messages _ _ _ _ _ _ _ H Hname Hne Hg)
    as (H1 & H2 & H3 & H4 & H5 & H6 & H7).
  destruct (report_kinds _ _ _ _ _ H) as (Hke & Hkw).
  rewrite H1, H2, H3.
  split; [reflexivity|]. split; [reflexivity|]. split; [reflexivity|].
  split; [exact H4|]. split; [exact H5|].
  split; [intros Ho; injection Ho as Ho; now apply H6|].
  split; [exact H7|].
  split; [|now split].
  intros col k Hcol Hk Hp. now apply (model_year_report_warning _ _ _ _ _ _ _ H).
Qed.

Lemma report_message_severity_witness :
  exists report,
    collect_schema_report (_schema_catalog (recalls_only sample_recalls_doc))
                          sample_frame "RCL.txt" None = Ok report /\
    Forall (fun m => is_error_message m = true) (report_errors report) /\
    Forall (fun m => is_error_message m = false) (report_warnings report).
Proof.
  eexists. split; [vm_compute; reflexivity|].
  eapply (report_message_severity
            (_schema_catalog (recalls_only sample_recalls_doc))
            sample_frame "RCL.txt" None _ "recalls").
  - vm_compute. reflexivity.
  - reflexivity.
  - discriminate.
  - vm_compute. reflexivity.
Defined.

(** C6 fails as stated: FMVSS has a legacy length override, and when the
    document gives the field that very size an overflow is reported among
    the errors and not among the warnings. *)
Lemma overridden_length_overflow_is_error :
  exists report,
    collect_schema_report (_schema_catalog (recalls_only doc_fmvss_six))
                          fmvss_frame "RCL.txt" (Some "recalls") = Ok report /\
    dict_get "fmvss" (dict_get_default "recalls" [] SCHEMA_LENGTH_OVERRIDES)
    = Some 6%N /\
    report_errors report = [LengthOverflow "fmvss" 1 6] /\
    report_warnings report
    = [CouldNotParseSchemaDoc "complaints" "Schema doc not found: docs/CMPL.txt"].
Proof.
  eexists. split; [vm_compute; reflexivity|]. now vm_compute.
Qed.

(* ------------------------------------------------------------------------- *)
(** ** The report builder: completion *)
(* ------------------------------------------------------------------------- *)










(* ------------------------------------------------------------------------- *)
(** ** An explicit schema name that the catalog does not hold *)
(* ------------------------------------------------------------------------- *)






(* ------------------------------------------------------------------------- *)
(** ** More on the parser and the catalog *)
(* ------------------------------------------------------------------------- *)

Lemma scan_line_before_marker (line : string) :
  contains "FIELDS:" line = false -> scan_line scan_start line = scan_start.
Proof. intros H. unfold scan_line. now rewrite H. Qed.

Lemma fold_scan_preamble (pre rest : list string) :
  Forall (fun line => contains "FIELDS:" line = false) pre ->
  fold_left scan_line (pre ++ rest) scan_start
  = fold_left scan_line rest scan_start.
Proof.
  induction 1 as [|line pre Hline _ IH]; [reflexivity|].
  cbn [app fold_left]. now rewrite (scan_line_before_marker line Hline).
Qed.

(** X1: the lines of a schema document that come before the first line
    holding the marker FIELDS: have no effect on the fields scanned, whatever
    they look like, field rows included. *)
Theorem preamble_is_ignored (pre rest : list string) :
  Forall (fun line => contains "FIELDS:" line = false) pre ->
  scan_lines (pre ++ rest) = scan_lines rest.
Proof.
  intros H. unfold scan_lines. now rewrite (fold_scan_preamble pre rest H).
Qed.

Lemma preamble_is_ignored_witness :
  Forall (fun line => contains "FIELDS:" line = false)
         ["1  NOT_A_FIELD  CHAR(3)"; "notes"] /\
  scan_lines (["1  NOT_A_FIELD  CHAR(3)"; "notes"] ++ ["FIELDS:"; "1  MAKETXT  CHAR(25)"])
  = scan_lines ["FIELDS:"; "1  MAKETXT  CHAR(25)"].
Proof.
  assert (H : Forall (fun line => contains "FIELDS:" line = false)
                     ["1  NOT_A_FIELD  CHAR(3)"; "notes"])
    by (repeat constructor).
  split; [exact H|].
  exact (preamble_is_ignored _ ["FIELDS:"; "1  MAKETXT  CHAR(25)"] H).
Defined.

(** X2: [_parse_schema_doc] raises [FileNotFoundError], naming the path, when
    there is no document, and [ValueError], naming the path, when no line of
    the document holds the marker FIELDS: (even if it has lines shaped like
    field rows); in neither case is a schema returned. *)
Theorem parse_schema_doc_failures (store : DocStore) (path schema : string) :
  (read_text store path = None ->
   _parse_schema_doc store path schema
   = Raise (FileNotFoundError ("Schema doc not found: " ++ path)%string)) /\
  (forall raw_text,
     read_text store path = Some raw_text ->
     Forall (fun line => contains "FIELDS:" line = false) (splitlines raw_text) ->
     _parse_schema_doc store path schema
     = Raise (ValueError ("No schema fields parsed from " ++ path)%string)).
Proof.
  unfold _parse_schema_doc. split.
  - intros H. now rewrite H.
  - intros raw Hread Hno. rewrite Hread.
    rewrite <- (app_nil_r (splitlines raw)).
    now rewrite (preamble_is_ignored _ [] Hno).
Qed.

Lemma parse_schema_doc_failures_witness :
  _parse_schema_doc (recalls_only (document ["1  MAKETXT  CHAR(25)"]))
                    "docs/RCL.txt" "recalls"
  = Raise (ValueError "No schema fields parsed from docs/RCL.txt") /\
  _parse_schema_doc (recalls_only doc_without_optional) "docs/CMPL.txt" "complaints"
  = Raise (FileNotFoundError "Schema doc not found: docs/CMPL.txt").
Proof.
  split.
  - apply (proj2 (parse_schema_doc_failures
                    (recalls_only (document ["1  MAKETXT  CHAR(25)"]))
                    "docs/RCL.txt" "recalls")
                 (document ["1  MAKETXT  CHAR(25)"])).
    + reflexivity.
    + vm_compute. repeat constructor.
  - apply (proj1 (parse_schema_doc_failures
                    (recalls_only doc_without_optional)
                    "docs/CMPL.txt" "complaints")).
    reflexivity.
Defined.

(** X3: the catalog isolates the schemas from one another.  For each
    configured schema, [get_schema_spec] returns what parsing its own
    document returns, or raises [RuntimeError] with the text of its own
    parse failure, whatever happened to the other document; for a name that
    is not configured it raises [KeyError]. *)
Theorem catalog_lookup_follows_own_document (store : DocStore) (n : string) :
  (forall file_name,
     In (n, file_name) SCHEMA_DOCS ->
     get_schema_spec (_schema_catalog store) n
     = match _parse_schema_doc store (doc_path_of store file_name) n with
       | Ok spec => Ok spec
       | Raise exc =>
           Raise (RuntimeError
                    ("Schema '" ++ n ++ "' could not be parsed: " ++ exn_str exc)%string)
       end) /\
  (~ In n (dict_keys SCHEMA_DOCS) ->
   exists msg, get_schema_spec (_schema_catalog store) n = Raise (KeyError msg)).
Proof.
  split.
  - intros file_name [H|[H|[]]]; injection H as <- <-;
      unfold get_schema_spec, _schema_catalog; cbn [SCHEMA_DOCS fold_left fst snd];
      destruct (_parse_schema_doc store (doc_path_of store "CMPL.txt") "complaints");
      destruct (_parse_schema_doc store (doc_path_of store "RCL.txt") "recalls");
      reflexivity.
  - intros Hn. cbn [SCHEMA_DOCS dict_keys map fst] in Hn.
    assert (H1 : String.eqb n "complaints" = false)
      by (apply String.eqb_neq; intros ->; apply Hn; now left).
    assert (H2 : String.eqb n "recalls" = false)
      by (apply String.eqb_neq; intros ->; apply Hn; right; now left).
    unfold get_schema_spec, _schema_catalog; cbn [SCHEMA_DOCS fold_left fst snd].
    destruct (_parse_schema_doc store (doc_path_of store "CMPL.txt") "complaints");
      destruct (_parse_schema_doc store (doc_path_of store "RCL.txt") "recalls");
      cbn [schemas errors_of dict_set dict_get];
      change (String.eqb "recalls" "complaints") with false;
      cbn [dict_get]; rewrite ?H1, ?H2; cbn [dict_get]; rewrite ?H1, ?H2;
      eexists; reflexivity.
Qed.

Lemma catalog_lookup_follows_own_document_witness :
  get_schema_spec (_schema_catalog (recalls_only doc_without_optional)) "recalls"
  = match _parse_schema_doc (recalls_only doc_without_optional)
                            (doc_path_of (recalls_only doc_without_optional) "RCL.txt")
                            "recalls" with
    | Ok spec => Ok spec
    | Raise exc =>
        Raise (RuntimeError
                 ("Schema 'recalls' could not be parsed: " ++ exn_str exc)%string)
    end.
Proof.
  apply (proj1 (catalog_lookup_follows_own_document
                  (recalls_only doc_without_optional) "recalls")).
  right. now left.
Defined.

(* ------------------------------------------------------------------------- *)
(** ** More on the matcher *)
(* ------------------------------------------------------------------------- *)

Lemma NoDup_filter {A} (p : A -> bool) (l : list A) : NoDup l -> NoDup (filter p l).
Proof.
  induction 1 as [|x l Hx _ IH]; simpl; [constructor|].
  destruct (p x); [|exact IH].
  constructor; [|exact IH]. intros Hin. apply filter_In in Hin. now apply Hx.
Qed.

Lemma overlap_count_le (columns expected : list string) :
  overlap_count columns expected <= length (set_of expected).
Proof.
  unfold overlap_count. apply NoDup_incl_length.
  - apply NoDup_filter. apply NoDup_nodup.
  - intros c Hc. apply filter_In in Hc as [_ Hc]. now apply mem_In.
Qed.

Lemma overlap_count_all (columns expected : list string) :
  incl expected columns ->
  overlap_count columns expected = length (set_of expected).
Proof.
  intros Hincl. unfold overlap_count. apply Permutation_length.
  apply NoDup_Permutation.
  - apply NoDup_filter. apply NoDup_nodup.
  - apply NoDup_nodup.
  - intros c. rewrite filter_In, mem_In. unfold set_of. rewrite !nodup_In.
    split; [tauto|]. intros Hc. split; [now apply Hincl | exact Hc].
Qed.

Lemma pos_of_nat_max (k : nat) : Z.pos (Pos.of_nat (Nat.max k 1)) = Z.of_nat (Nat.max k 1).
Proof.
  rewrite <- positive_nat_Z, Nat2Pos.id; [reflexivity | lia].
Qed.

(** X4: the score of a dataset against a schema lies between 0 and 1, and is
    1 when the schema has expected columns and the dataset holds them
    all. *)
Theorem match_score_bounds (columns : list string) (spec : SchemaSpec) :
  (0 <= score_against columns spec)%Q /\
  (score_against columns spec <= 1)%Q /\
  (expected_columns spec <> [] -> incl (expected_columns spec) columns ->
   (score_against columns spec == 1)%Q).
Proof.
  unfold score_against, match_score.
  pose proof (overlap_count_le columns (expected_columns spec)) as Hle.
  split; [|split].
  - unfold Qle. cbn [Qnum Qden]. lia.
  - unfold Qle. cbn [Qnum Qden]. rewrite pos_of_nat_max. lia.
  - intros Hne Hincl. rewrite (overlap_count_all _ _ Hincl).
    unfold Qeq. cbn [Qnum Qden]. rewrite pos_of_nat_max.
    assert (Hpos : 0 < length (set_of (expected_columns spec))).
    { destruct (expected_columns spec) as [|c l] eqn:E; [now elim Hne|].
      assert (Hin : In c (set_of (c :: l))) by (apply nodup_In; now left).
      destruct (set_of (c :: l)); [destruct Hin | simpl; lia]. }
    lia.
Qed.

Lemma match_score_bounds_witness :
  exists spec,
    dict_get "recalls" (schemas (_schema_catalog (recalls_only sample_recalls_doc)))
    = Some spec /\
    (score_against (column_labels sample_frame) spec == 1)%Q.
Proof.
  eexists. split; [vm_compute; reflexivity|].
  apply match_score_bounds.
  - vm_compute. discriminate.
  - vm_compute. intuition.
Defined.

Section TieBreak.
Variable columns : list string.




End TieBreak.


(* ------------------------------------------------------------------------- *)
(** ** More on the validators *)
(* ------------------------------------------------------------------------- *)

Lemma length_filter_dropna_map {A B} (p : B -> bool) (g : A -> option B) (l : list A) :
  length (filter p (dropna (map g l)))
  = length (filter (fun x => match g x with Some y => p y | None => false end) l).
Proof.
  induction l as [|x l IH]; [reflexivity|].
  cbn [map dropna flat_map filter]. fold (dropna (map g l)).
  destruct (g x) as [y|]; cbn [app filter]; [|exact IH].
  destruct (p y); cbn [length app]; now rewrite IH.
Qed.

Lemma length_filter_filter {A} (f q : A -> bool) (l : list A) :
  length (filter q (filter f l)) = length (filter (fun x => f x && q x) l).
Proof.
  induction l as [|x l IH]; [reflexivity|].
  cbn [filter]. destruct (f x); cbn [filter andb]; [|exact IH].
  destruct (q x); cbn [length]; now rewrite IH.
Qed.

Lemma length_filter_le {A} (f : A -> bool) (l : list A) :
  length (filter f l) <= length l.
Proof.
  induction l as [|x l IH]; simpl; [lia|]. destruct (f x); simpl; lia.
Qed.

Lemma length_filter_disjoint_le {A} (f g h : A -> bool) (l : list A) :
  (forall x, f x = true -> h x = true) ->
  (forall x, g x = true -> h x = true) ->
  (forall x, f x = true -> g x = false) ->
  length (filter f l) + length (filter g l) <= length (filter h l).
Proof.
  intros Hf Hg Hfg. induction l as [|x l IH]; simpl; [lia|].
  destruct (f x) eqn:Ef, (g x) eqn:Eg, (h x) eqn:Eh; simpl; try lia.
  - rewrite (Hfg x Ef) in Eg. discriminate.
  - rewrite (Hf x Ef) in Eh. discriminate.
  - rewrite (Hf x Ef) in Eh. discriminate.
  - rewrite (Hg x Eg) in Eh. discriminate.
Qed.

Lemma numeric_counts_text (series : Series) (max_digits : N) :
  let r := _validate_numeric_field series max_digits in
  numeric_non_null_count r
  = length (filter (fun v => notna (clean_value v)) (cells series)) /\
  non_numeric_count r = length (filter counted_non_numeric (cells series)) /\
  non_integer_count r = length (filter counted_non_integer (cells series)) /\
  digits_overflow_count r
  = length (filter (counted_digits_overflow max_digits) (cells series)).
Proof.
  cbv zeta. unfold _validate_numeric_field, _clean_text_series, to_numeric.
  rewrite !map_map. fold numeric_of.
  change (fun x : option string =>
            match clean_value x with
            | Some t => to_numeric_text t
            | None => None
            end) with numeric_of.
  rewrite !mask_not_map, !mask_and_map, !mask_sum_map.
  destruct (length (filter (fun v => notna (clean_value v)) (cells series)) =? 0)
    eqn:E0.
  - apply Nat.eqb_eq in E0.
    cbn [numeric_non_null_count non_numeric_count non_integer_count
         digits_overflow_count].
    split; [now rewrite E0|].
    repeat split; symmetry; revert E0; apply filter_none_of_weaker; intros v.
    + unfold counted_non_numeric. now destruct (notna (clean_value v)).
    + unfold counted_non_integer, numeric_of.
      now destruct (clean_value v).
    + unfold counted_digits_overflow. now destruct (clean_value v).
  - cbn [numeric_non_null_count non_numeric_count non_integer_count
         digits_overflow_count].
    split; [reflexivity|]. split; [reflexivity|].
    unfold numeric_of.
    set (parseable := fun x : option string =>
                        notna (clean_value x) &&
                        negb (isna match clean_value x with
                                   | Some t => to_numeric_text t
                                   | None => None
                                   end)).
    assert (Hint : forall v, counted_non_integer v = true -> parseable v = true).
    { intros v. unfold counted_non_integer, parseable, numeric_of, isna.
      destruct (clean_value v); [|discriminate].
      now destruct (to_numeric_text s). }
    assert (Hdig : forall v, counted_digits_overflow max_digits v = true ->
                             parseable v = true).
    { intros v. unfold counted_digits_overflow, parseable, numeric_of, isna.
      destruct (clean_value v); [|discriminate].
      now destruct (to_numeric_text s). }
    destruct (0 <? length (filter parseable (cells series))) eqn:E1.
    + split.
      * rewrite select_map.
        rewrite length_filter_dropna_map, length_filter_filter.
        f_equal. apply filter_ext. intros v.
        unfold parseable, counted_non_integer, numeric_of, isna.
        destruct (clean_value v) as [t|]; [|reflexivity].
        now destruct (to_numeric_text t).
      * rewrite select_map.
        rewrite length_filter_dropna_map, length_filter_filter.
        f_equal. apply filter_ext. intros v.
        unfold parseable, counted_digits_overflow, numeric_of, isna.
        destruct (clean_value v) as [t|]; [|reflexivity].
        now destruct (to_numeric_text t).
    + apply Nat.ltb_ge in E1.
      assert (E1' : length (filter parseable (cells series)) = 0) by lia.
      split; symmetry; revert E1'; now apply filter_none_of_weaker.
Qed.

(** X6: the counters of the Numeric validator are counts of values of the
    column: non-null values that are no number, numbers that are not
    integral, numbers with more digit characters than [max_digits]; this
    holds through the early return for an all-null column.  Non-numeric and
    non-integer values are distinct non-null values, so the two counters
    together never exceed the non-null count. *)
Theorem numeric_counters_count_values (series : Series) (max_digits : N) :
  let r := _validate_numeric_field series max_digits in
  non_numeric_count r = length (filter counted_non_numeric (cells series)) /\
  non_integer_count r = length (filter counted_non_integer (cells series)) /\
  digits_overflow_count r
  = length (filter (counted_digits_overflow max_digits) (cells series)) /\
  non_numeric_count r + non_integer_count r <= numeric_non_null_count r /\
  non_numeric_count r + digits_overflow_count r <= numeric_non_null_count r /\
  numeric_non_null_count r <= length (cells series).
Proof.
  destruct (numeric_counts_text series max_digits) as (H0 & H1 & H2 & H3).
  cbv zeta in *. rewrite H0, H1, H2, H3.
  split; [reflexivity|]. split; [reflexivity|]. split; [reflexivity|].
  split; [|split].
  - apply length_filter_disjoint_le; intros v;
      unfold counted_non_numeric, counted_non_integer, numeric_of, isna.
    + now destruct (clean_value v).
    + destruct (clean_value v); [reflexivity | discriminate].
    + destruct (clean_value v); [|discriminate].
      now destruct (to_numeric_text s).
  - apply length_filter_disjoint_le; intros v;
      unfold counted_non_numeric, counted_digits_overflow, numeric_of, isna.
    + now destruct (clean_value v).
    + destruct (clean_value v); [reflexivity | discriminate].
    + destruct (clean_value v); [|discriminate].
      now destruct (to_numeric_text s).
  - apply length_filter_le.
Qed.

(** X7: on a column of text the Date validator counts as placeholders
    exactly the non-null values that are, once stripped and upper-cased, one
    of 0, 00000000 and 0000-00-00; placeholders and invalid dates are
    distinct non-null values; and the examples are at most five, sorted and
    distinct, each the stripped text of a value counted invalid.  On a
    column that already holds dates nothing is counted but the non-null
    values. *)
Theorem date_validator_counts (series : Series) :
  let r := _validate_date_field series in
  if is_datetime64_any_dtype series then
    date_non_null_count r = length (filter notna (cells series)) /\
    placeholder_zero_count r = 0 /\ invalid_date_count r = 0 /\
    date_invalid_examples r = []
  else
    date_non_null_count r
    = length (filter (fun v => notna (clean_value v)) (cells series)) /\
    placeholder_zero_count r
    = length (filter counted_placeholder_date (cells series)) /\
    placeholder_zero_count r + invalid_date_count r <= date_non_null_count r /\
    length (date_invalid_examples r) <= 5 /\
    Sorted leb_holds (date_invalid_examples r) /\
    NoDup (date_invalid_examples r) /\
    forall e, In e (date_invalid_examples r) ->
              exists v, In v (cells series) /\
                        counted_invalid_date v = true /\ clean_value v = Some e.
Proof.
  cbv zeta. destruct (is_datetime64_any_dtype series) eqn:Hd.
  - unfold _validate_date_field. rewrite Hd.
    cbn [date_non_null_count placeholder_zero_count invalid_date_count
         date_invalid_examples].
    rewrite mask_sum_map. now repeat split.
  - pose proof (invalid_date_count_text series Hd) as Hinv.
    assert (Hcounts :
              date_non_null_count (_validate_date_field series)
              = length (filter (fun v => notna (clean_value v)) (cells series)) /\
              placeholder_zero_count (_validate_date_field series)
              = length (filter counted_placeholder_date (cells series)) /\
              (date_invalid_examples (_validate_date_field series) = [] \/
               date_invalid_examples (_validate_date_field series)
               = examples_of 5 (map clean_value
                                    (filter counted_invalid_date (cells series))))).
    { unfold _validate_date_field, _clean_text_series. rewrite Hd.
      autorewrite with masks. rewrite !mask_sum_map.
      destruct (length (filter _ (cells series)) =? 0) eqn:E0;
        cbn [date_non_null_count placeholder_zero_count date_invalid_examples].
      { split; [reflexivity|]. split; [|now left].
        symmetry. apply Nat.eqb_eq in E0. revert E0.
        apply filter_none_of_weaker. intros v. unfold counted_placeholder_date.
        now destruct (clean_value v). }
      assert (Hz : forall l : list (option string),
                 length (filter
                           (fun x => match option_map upper (clean_value x) with
                                     | Some u => mem u PLACEHOLDER_DATES
                                     | None => false
                                     end) l)
                 = length (filter counted_placeholder_date l)).
      { intros l. f_equal. apply filter_ext. intros v.
        unfold counted_placeholder_date, is_placeholder.
        now destruct (clean_value v). }
      match goal with |- context [if ?c then _ else _] => destruct c eqn:E1 end;
        cbn [date_non_null_count placeholder_zero_count date_invalid_examples].
      { split; [reflexivity|]. split; [apply Hz | now left]. }
      split; [reflexivity|]. split; [apply Hz|].
      match goal with |- context [if ?c then _ else _] => destruct c end;
        [right | now left].
      rewrite select_map. do 2 f_equal. apply filter_ext. intros v.
      unfold counted_invalid_date, is_placeholder.
      destruct (clean_value v) as [t|]; cbn [notna option_map andb]; [|reflexivity].
      destruct (mem (upper t) PLACEHOLDER_DATES); cbn [negb andb]; [reflexivity|].
      unfold isna. rewrite to_datetime_ymd_notna. unfold is_yyyymmdd_date.
      destruct (is_eight_digits t); reflexivity. }
    destruct Hcounts as (H0 & H1 & Hex). rewrite H0, H1, Hinv.
    split; [reflexivity|]. split; [reflexivity|]. split.
    { apply length_filter_disjoint_le; intros v;
        unfold counted_placeholder_date, counted_invalid_date.
      - now destruct (clean_value v).
      - now destruct (clean_value v).
      - destruct (clean_value v); [|discriminate]. intros ->. reflexivity. }
    destruct Hex as [Hex|Hex]; rewrite Hex.
    { cbn [length]. repeat split; try constructor; try lia. intros e []. }
    destruct (examples_of_spec 5 (map clean_value
                                      (filter counted_invalid_date (cells series))))
      as (A & B & C & D & _).
    repeat split; trivial.
    intros e He. apply D in He. apply in_map_iff in He as (v & Hv & Hin).
    apply filter_In in Hin as [Hin Hc]. now exists v.
Qed.

Lemma fold_right_max_le (l : list nat) (m : nat) :
  fold_right Nat.max 0 l <= m <-> forall n, In n l -> n <= m.
Proof.
  induction l as [|x l IH]; simpl.
  - split; [intros _ n [] | lia].
  - rewrite Nat.max_lub_iff, IH. split.
    + intros [Hx Hl] n [<-|Hn]; [exact Hx | now apply Hl].
    + intros H. split; [apply H; now left | intros n Hn; apply H; now right].
Qed.

Lemma filter_length_zero {A} (f : A -> bool) (l : list A) :
  length (filter f l) = 0 <-> forall x, In x l -> f x = false.
Proof.
  induction l as [|x l IH]; simpl.
  - split; [intros _ y [] | reflexivity].
  - destruct (f x) eqn:E; simpl.
    + split; [discriminate|]. intros H. specialize (H x (or_introl eq_refl)). congruence.
    + rewrite IH. split.
      * intros H y [<-|Hy]; [exact E | now apply H].
      * intros H y Hy. apply H. now right.
Qed.

Lemma length_dropna {A} (l : list (option A)) :
  length (dropna l) = length (filter notna l).
Proof.
  induction l as [|[x|] l IH]; simpl; [reflexivity | now rewrite <- IH | exact IH].
Qed.

(** X8: unless the check is skipped for a column of dates, the CharLength
    validator counts exactly the non-null values longer than [max_length]
    once stripped, no stripped value is longer than the maximum it reports,
    and it reports no overflow exactly when that maximum is within
    [max_length]. *)
Theorem char_length_counts (series : Series) (max_length : N) (allow_datetime : bool) :
  allow_datetime && is_datetime64_any_dtype series = false ->
  let r := _validate_char_length series max_length allow_datetime in
  char_checked r = true /\
  char_non_null_count r
  = length (filter (fun v => notna (clean_value v)) (cells series)) /\
  too_long_count r = length (filter (counted_too_long max_length) (cells series)) /\
  too_long_count r <= char_non_null_count r /\
  (forall v t, In v (cells series) -> clean_value v = Some t ->
               length (chars t) <= max_observed_length r) /\
  (too_long_count r = 0 <-> (N.of_nat (max_observed_length r) <= max_length)%N).
Proof.
  intros Hskip. cbv zeta. unfold _validate_char_length, _clean_text_series.
  rewrite Hskip. rewrite mask_sum_map, filter_map_comm, length_map.
  set (lengths := map (fun t => length (chars t)) (dropna (map clean_value (cells series)))).
  assert (Hlen : forall v t, In v (cells series) -> clean_value v = Some t ->
                             In (length (chars t)) lengths).
  { intros v t Hv Ht. unfold lengths.
    apply (in_map (fun t : string => length (chars t))). apply In_dropna.
    rewrite <- Ht. now apply in_map. }
  assert (Hnon : length lengths
                 = length (filter (fun v => notna (clean_value v)) (cells series))).
  { unfold lengths. rewrite length_map, length_dropna.
    now rewrite filter_map_comm, length_map. }
  assert (Hlong : length (filter (fun n => (max_length <? N.of_nat n)%N) lengths)
                  = length (filter (counted_too_long max_length) (cells series))).
  { unfold lengths. rewrite filter_map_comm, length_map, length_filter_dropna_map.
    f_equal. }
  destruct ((length (filter (fun v => notna (clean_value v)) (cells series)) =? 0)
            || is_empty lengths) eqn:E;
    cbn [char_checked char_non_null_count too_long_count max_observed_length].
  - assert (Hnil : lengths = []).
    { apply orb_true_iff in E as [E|E].
      - apply Nat.eqb_eq in E. rewrite <- Hnon in E. now destruct lengths.
      - now destruct lengths. }
    rewrite Hnil in Hlen, Hlong. cbn [filter length] in Hlong.
    split; [reflexivity|]. split; [reflexivity|]. split; [exact Hlong|].
    split; [lia|]. split.
    + intros v t Hv Ht. destruct (Hlen v t Hv Ht).
    + split; [intros _; apply N.le_0_l | reflexivity].
  - rewrite mask_sum_map, Hlong.
    split; [reflexivity|]. split; [reflexivity|]. split; [reflexivity|].
    split.
    + rewrite <- Hlong, <- Hnon. apply length_filter_le.
    + split.
      * intros v t Hv Ht.
        apply (proj1 (fold_right_max_le lengths _) (Nat.le_refl _)).
        now apply (Hlen v t).
      * rewrite <- Hlong, filter_length_zero. split.
        -- intros H.
           assert (Hm : fold_right Nat.max 0 lengths <= N.to_nat max_length).
           { apply fold_right_max_le. intros n Hn. specialize (H n Hn).
             apply N.ltb_ge in H. lia. }
           lia.
        -- intros H n Hn. apply N.ltb_ge.
           assert (Hm : n <= fold_right Nat.max 0 lengths)
             by (apply (proj1 (fold_right_max_le lengths _) (Nat.le_refl _)); exact Hn).
           lia.
Qed.

Lemma char_length_counts_witness :
  false && is_datetime64_any_dtype (text_series ["AB"; "ABCD"; ""]) = false /\
  too_long_count (_validate_char_length (text_series ["AB"; "ABCD"; ""]) 3 false)
  = length (filter (counted_too_long 3) (cells (text_series ["AB"; "ABCD"; ""]))).
Proof.
  split; [reflexivity|].
  apply (char_length_counts (text_series ["AB"; "ABCD"; ""]) 3 false).
  reflexivity.
Defined.

Lemma upper_char_idem (c : ascii) : upper_char (upper_char c) = upper_char c.
Proof. destruct c as [[] [] [] [] [] [] [] []]; reflexivity. Qed.

Lemma isspace_upper_char (c : ascii) : isspace (upper_char c) = isspace c.
Proof. destruct c as [[] [] [] [] [] [] [] []]; reflexivity. Qed.

Lemma upper_idem (s : string) : upper (upper s) = upper s.
Proof.
  unfold upper, on_chars. rewrite chars_text_of, map_map. f_equal.
  apply map_ext. exact upper_char_idem.
Qed.

Lemma dropwhile_map {A} (p : A -> bool) (f : A -> A) (l : list A) :
  (forall x, p (f x) = p x) -> dropwhile p (map f l) = map f (dropwhile p l).
Proof.
  intros H. induction l as [|x l IH]; simpl; [reflexivity|].
  rewrite H. now destruct (p x).
Qed.

Lemma rdropwhile_map {A} (p : A -> bool) (f : A -> A) (l : list A) :
  (forall x, p (f x) = p x) -> rdropwhile p (map f l) = map f (rdropwhile p l).
Proof.
  intros H. induction l as [|x l IH]; simpl; [reflexivity|].
  rewrite IH, H. destruct (rdropwhile p l); simpl; [now destruct (p x) | reflexivity].
Qed.

Lemma strip_upper (s : string) : strip (upper s) = upper (strip s).
Proof.
  unfold strip, upper, on_chars, strip_by. rewrite !chars_text_of. f_equal.
  rewrite dropwhile_map by exact isspace_upper_char.
  now rewrite rdropwhile_map by exact isspace_upper_char.
Qed.

Lemma upper_is_empty (s : string) : String.eqb (upper s) "" = String.eqb s "".
Proof.
  destruct s as [|c s]; [reflexivity|]. unfold upper, on_chars. reflexivity.
Qed.

Lemma clean_value_upper (v : option string) :
  clean_value (option_map upper v) = option_map upper (clean_value v).
Proof.
  destruct v as [s|]; [|reflexivity]. unfold clean_value. cbn [option_map].
  cbv zeta. rewrite strip_upper, upper_is_empty.
  now destruct (String.eqb (strip s) "").
Qed.

Lemma normalized_upper_series (series : Series) :
  map (option_map upper) (_clean_text_series (upper_series series))
  = map (option_map upper) (_clean_text_series series).
Proof.
  unfold _clean_text_series, upper_series. cbn [cells]. rewrite !map_map.
  apply map_ext. intros v. rewrite clean_value_upper.
  destruct (clean_value v); [|reflexivity]. cbn [option_map]. now rewrite upper_idem.
Qed.

Lemma enum_invalid_count_text (series : Series) (allowed_values : list string) :
  allowed_values <> [] ->
  invalid_value_count (_validate_enum_field series allowed_values)
  = length (filter (counted_outside_codes allowed_values) (cells series)).
Proof.
  intros Hne. unfold _validate_enum_field, _clean_text_series.
  destruct allowed_values as [|a al]; [now elim Hne|]. cbn [is_empty].
  autorewrite with masks. rewrite !mask_sum_map.
  assert (Hw : forall v, counted_outside_codes (a :: al) v = true ->
                         notna (option_map upper (clean_value v)) = true).
  { intros v. unfold counted_outside_codes. now destruct (clean_value v). }
  destruct (length (filter _ (cells series)) =? 0) eqn:E0; cbn [invalid_value_count].
  - symmetry. apply Nat.eqb_eq in E0. revert E0. now apply filter_none_of_weaker.
  - f_equal. apply filter_ext. intros v. unfold counted_outside_codes.
    destruct (clean_value v) as [t|]; cbn [option_map notna andb]; [|reflexivity].
    now rewrite mem_set_of.
Qed.

(** X9: the Enum validator is not checked for an empty set of allowed
    values; otherwise it counts exactly the non-null values whose stripped,
    upper-cased form is outside the upper-cased allowed values, and its whole
    report is unchanged when the allowed values or the values of the column
    are put in upper case. *)
Theorem enum_validator_case_insensitive (series : Series) (allowed_values : list string) :
  enum_checked (_validate_enum_field series allowed_values)
  = negb (is_empty allowed_values) /\
  (allowed_values <> [] ->
   invalid_value_count (_validate_enum_field series allowed_values)
   = length (filter (counted_outside_codes allowed_values) (cells series))) /\
  _validate_enum_field series (map upper allowed_values)
  = _validate_enum_field series allowed_values /\
  _validate_enum_field (upper_series series) allowed_values
  = _validate_enum_field series allowed_values.
Proof.
  split; [|split; [|split]].
  - unfold _validate_enum_field. destruct allowed_values; cbn [is_empty negb enum_checked];
      [reflexivity|].
    now destruct (mask_sum _ =? 0).
  - apply enum_invalid_count_text.
  - assert (E : map upper (map upper allowed_values) = map upper allowed_values)
      by (rewrite map_map; apply map_ext; exact upper_idem).
    unfold _validate_enum_field. rewrite E.
    now destruct allowed_values.
  - unfold _validate_enum_field. now rewrite !normalized_upper_series.
Qed.

Lemma enum_validator_case_insensitive_witness :
  ["y"; "n"] <> [] /\
  invalid_value_count (_validate_enum_field (text_series ["y"; "N"; "X"]) ["y"; "n"])
  = length (filter (counted_outside_codes ["y"; "n"])
                   (cells (text_series ["y"; "N"; "X"]))).
Proof.
  split; [discriminate|].
  apply (enum_validator_case_insensitive (text_series ["y"; "N"; "X"]) ["y"; "n"]).
  discriminate.
Defined.

(* ------------------------------------------------------------------------- *)
(** ** More on the report *)
(* ------------------------------------------------------------------------- *)

Lemma schema_catalog_entry (store : DocStore) (n : string) (spec : SchemaSpec) :
  dict_get n (schemas (_schema_catalog store)) = Some spec ->
  exists file_name,
    In (n, file_name) SCHEMA_DOCS /\
    _parse_schema_doc store (doc_path_of store file_name) n = Ok spec.
Proof.
  unfold _schema_catalog; cbn [SCHEMA_DOCS fold_left fst snd].
  destruct (_parse_schema_doc store (doc_path_of store "CMPL.txt") "complaints")
    as [s1|e1] eqn:E1;
    destruct (_parse_schema_doc store (doc_path_of store "RCL.txt") "recalls")
    as [s2|e2] eqn:E2;
    cbn [schemas errors_of dict_set dict_get];
    change (String.eqb "recalls" "complaints") with false;
    cbn [dict_get];
    repeat match goal with
           | |- context [String.eqb n ?k] => destruct (String.eqb_spec n k); subst
           end;
    intros H; try discriminate; injection H as <-.
  - exists "CMPL.txt". split; [now left | exact E1].
  - exists "RCL.txt". split; [right; now left | exact E2].
  - exists "CMPL.txt". split; [now left | exact E1].
  - exists "RCL.txt". split; [right; now left | exact E2].
Qed.

Lemma filter_all {A} (f : A -> bool) (l : list A) :
  (forall x, In x l -> f x = true) -> filter f l = l.
Proof.
  induction l as [|x l IH]; intros H; simpl; [reflexivity|].
  rewrite (H x (or_introl eq_refl)). f_equal. apply IH. intros y Hy. apply H. now right.
Qed.

Lemma filter_none {A} (f : A -> bool) (l : list A) :
  (forall x, In x l -> f x = false) -> filter f l = [].
Proof.
  induction l as [|x l IH]; intros H; simpl; [reflexivity|].
  rewrite (H x (or_introl eq_refl)). apply IH. intros y Hy. apply H. now right.
Qed.

Lemma names_eqb_refl (l : list string) : names_eqb l l = true.
Proof. induction l as [|x l IH]; simpl; [reflexivity|]. now rewrite String.eqb_refl. Qed.

Lemma mem_false (x : string) (l : list string) : mem x l = false <-> ~ In x l.
Proof. rewrite <- mem_In. now destruct (mem x l). Qed.

(** X10: a dataset whose columns are the expected columns of the matched
    schema, in the schema's order, followed only by allow-listed provenance
    columns (source_zip, source_file) has no missing required column, no
    unexpected extra column, and its column order matches. *)
Theorem exact_columns_with_provenance
        (store : DocStore) (df : DataFrame) (dataset_name : string)
        (schema_name : option string) (report : Report)
        (n : string) (spec : SchemaSpec) (provenance : list string) :
  collect_schema_report (_schema_catalog store) df dataset_name schema_name
  = Ok report ->
  report_schema_name report = Some n -> n <> "" ->
  dict_get n (schemas (_schema_catalog store)) = Some spec ->
  NoDup (column_labels df) ->
  column_labels df = expected_columns spec ++ provenance ->
  incl provenance ALLOWED_PIPELINE_EXTRA_COLUMNS ->
  missing_columns report = [] /\
  unexpected_extra_columns report = [] /\
  column_order_matches_expected report = Some true.
Proof.
  intros H Hname Hne Hg Hnd Hlabels Hprov.
  destruct (matched_report_messages _ _ _ _ _ _ _ H Hname Hne Hg)
    as (H1 & H2 & H3 & _).
  rewrite H1, H2, H3.
  assert (Hexp : forall c, In c (expected_columns spec) ->
                           mem c (column_labels df) = true).
  { intros c Hc. apply mem_In. rewrite Hlabels. apply in_or_app. now left. }
  assert (Hdisj : forall c, In c provenance -> ~ In c (expected_columns spec)).
  { intros c Hc Hin. rewrite Hlabels in Hnd. clear -Hnd Hin Hc.
    induction (expected_columns spec) as [|x l IH]; [destruct Hin|].
    cbn [app] in Hnd. inversion Hnd as [|? ? Hx Hnd']; subst.
    destruct Hin as [->|Hin]; [apply Hx, in_or_app; now right | now apply IH]. }
  assert (Hreq : incl (required_columns spec) (expected_columns spec)).
  { apply schema_catalog_entry in Hg as (file & _ & Hparse).
    apply parse_schema_doc_Ok in Hparse as (raw & _ & _ & Hspec).
    intros c Hc. rewrite Hspec in Hc |- *. now apply build_required_iff in Hc. }
  split; [|split].
  - unfold missing_required_of. apply filter_none. intros c Hc.
    now rewrite (Hexp c (Hreq c Hc)).
  - unfold unexpected_extra_of, extra_columns_of. apply filter_none.
    intros c Hc. apply filter_In in Hc as [Hc Hout].
    apply negb_true_iff in Hout. rewrite mem_set_of in Hout. apply mem_false in Hout.
    rewrite Hlabels in Hc. apply in_app_or in Hc as [Hc|Hc]; [contradiction|].
    apply negb_false_iff, mem_In. now apply Hprov.
  - f_equal. unfold order_matches, present_expected_of.
    rewrite (filter_all _ (expected_columns spec) Hexp).
    rewrite Hlabels, filter_app.
    rewrite (filter_all _ (expected_columns spec)),
            (filter_none _ provenance), app_nil_r.
    + apply names_eqb_refl.
    + intros c Hc. rewrite mem_set_of. now apply mem_false, Hdisj.
    + intros c Hc. rewrite mem_set_of. now apply mem_In.
Qed.

Lemma exact_columns_with_provenance_witness :
  exists report,
    collect_schema_report (_schema_catalog (recalls_only doc_without_optional))
                          provenance_frame "RCL.txt" (Some "recalls") = Ok report /\
    missing_columns report = [] /\
    unexpected_extra_columns report = [] /\
    column_order_matches_expected report = Some true.
Proof.
  eexists. split; [vm_compute; reflexivity|].
  eapply (exact_columns_with_provenance
            (recalls_only doc_without_optional) provenance_frame "RCL.txt"
            (Some "recalls") _ "recalls" _ ["source_zip"]).
  - vm_compute. reflexivity.
  - reflexivity.
  - discriminate.
  - vm_compute. reflexivity.
  - vm_compute. repeat constructor; simpl; intuition discriminate.
  - vm_compute. reflexivity.
  - intros c [<-|[]]. now left.
Defined.

(** X11: a report without errors vouches for the data: when a schema was
    matched and the error list is empty, no required column is missing, and
    in every expected column present no numeric field holds a non-numeric
    value, no date field holds an invalid date, and no character field
    checked against its documented size holds a value that is too long. *)
Theorem no_errors_means_no_hard_violation
        (info : CatalogInfo) (df : DataFrame) (dataset_name : string)
        (schema_name : option string) (report : Report)
        (n : string) (spec : SchemaSpec) :
  collect_schema_report info df dataset_name schema_name = Ok report ->
  report_schema_name report = Some n -> n <> "" ->
  dict_get n (schemas info) = Some spec ->
  report_errors report = [] ->
  missing_required_of df spec = [] /\
  forall c field series,
    In c (present_expected_of df spec) ->
    dict_get c (field_map spec) = Some field ->
    getitem df c = Ok (OneSeries series) ->
    (type field = "NUMBER" ->
     non_numeric_count (_validate_numeric_field series (size field)) = 0) /\
    (is_date field = true ->
     invalid_date_count (_validate_date_field series) = 0) /\
    (type field = "CHAR" ->
     dict_get_default c (size field) (dict_get_default n [] SCHEMA_LENGTH_OVERRIDES)
     = size field ->
     too_long_count (_validate_char_length series (size field) (is_date field)) = 0).
Proof.
  intros H Hname Hne Hg Herr.
  destruct (matched_report_messages _ _ _ _ _ _ _ H Hname Hne Hg)
    as (_ & _ & _ & Hmis & _ & _ & Hcols).
  rewrite Herr in Hmis, Hcols. split.
  - destruct (missing_required_of df spec) as [|x l]; [reflexivity|].
    destruct Hmis. discriminate.
  - intros c field series Hc Hf Hget.
    destruct (Hcols c Hc field series Hf Hget) as (Hn & Hd & Hch). cbv zeta in *.
    split; [|split].
    + intros Ht. destruct (Hn Ht) as (A & _). clear -A.
      set (k := non_numeric_count (_validate_numeric_field series (size field))) in *.
      destruct k; [reflexivity|]. destruct A. lia.
    + intros Ht. destruct (Hd Ht) as (A & _). clear -A.
      set (k := invalid_date_count (_validate_date_field series)) in *.
      destruct k; [reflexivity|]. destruct A. lia.
    + intros Ht Hsize. destruct (Hch Ht) as (A & _). rewrite Hsize in A. clear -A.
      set (k := too_long_count
                  (_validate_char_length series (size field) (is_date field))) in *.
      destruct k; [reflexivity|].
      destruct A as [A _]; [lia|]. destruct (A eq_refl).
Qed.

Lemma no_errors_means_no_hard_violation_witness :
  exists report,
    collect_schema_report (_schema_catalog (recalls_only doc_without_optional))
                          provenance_frame "RCL.txt" (Some "recalls") = Ok report /\
    report_errors report = [] /\
    exists spec,
      dict_get "recalls" (schemas (_schema_catalog (recalls_only doc_without_optional)))
      = Some spec /\
      missing_required_of provenance_frame spec = [].
Proof.
  eexists. split; [vm_compute; reflexivity|]. split; [vm_compute; reflexivity|].
  eexists. split; [vm_compute; reflexivity|].
  eapply (no_errors_means_no_hard_violation
            (_schema_catalog (recalls_only doc_without_optional))
            provenance_frame "RCL.txt" (Some "recalls") _ "recalls").
  - vm_compute. reflexivity.
  - reflexivity.
  - discriminate.
  - vm_compute. reflexivity.
  - vm_compute. reflexivity.
Defined.

Lemma catalog_warnings_no_checks (info : CatalogInfo) :
  field_checks (catalog_warnings info) = [].
Proof.
  unfold catalog_warnings. generalize (errors_of info). intros l.
  assert (H : forall f, field_checks f = [] ->
              field_checks
                (fold_left (fun f failed =>
                    warn (CouldNotParseSchemaDoc (fst failed) (snd failed)) f) l f)
              = []).
  { induction l as [|x l IH]; intros f Hf; cbn [fold_left]; [exact Hf|].
    apply IH. exact Hf. }
  now apply H.
Qed.

Lemma check_column_records
      (df : DataFrame) (schema : string) (spec : SchemaSpec) (overrides : Dict N)
      (f f' : Findings) (c : string) :
  check_column df schema spec overrides f c = Ok f' ->
  exists cr, field_checks f' = dict_set c cr (field_checks f).
Proof.
  unfold check_column. intros H.
  apply bind_Ok in H as (field0 & _ & H).
  apply bind_Ok in H as (sel & _ & H).
  apply bind_Ok in H as (st1 & H1 & H).
  apply bind_Ok in H as (st2 & H2 & H).
  apply bind_Ok in H as (st3 & H3 & H).
  injection H as <-.
  apply check_number_spec in H1 as (_ & _ & _ & K1 & _).
  apply check_date_spec in H2 as (_ & _ & _ & K2 & _).
  apply check_char_spec in H3 as (_ & _ & _ & K3 & _).
  exists (snd st3). cbn [record_column field_checks].
  now rewrite K3, K2, K1.
Qed.

Lemma for_each_columns_records
      (df : DataFrame) (schema : string) (spec : SchemaSpec) (overrides : Dict N)
      (l : list string) (f f' : Findings) (k : string) :
  for_each (check_column df schema spec overrides) l f = Ok f' ->
  ((exists cr, dict_get k (field_checks f') = Some cr) <->
   (exists cr, dict_get k (field_checks f) = Some cr) \/ In k l).
Proof.
  revert f. induction l as [|x l IH]; intros f; cbn [for_each].
  - intros H. injection H as <-. simpl. tauto.
  - intros H. apply bind_Ok in H as (f1 & Hstep & Hrest).
    apply check_column_records in Hstep as (cr & Hcr).
    rewrite (IH f1 Hrest), Hcr, dict_get_set. simpl.
    destruct (String.eqb_spec k x) as [->|Hne].
    + split; [intros _; right; now left | intros _; left; now exists cr].
    + split; [intros [H|H]; [now left | right; now right]
             | intros [H|[H|H]]; [now left | congruence | now right]].
Qed.

(** X12: when a schema was matched, the report holds the outcome of the
    field checks for exactly the expected columns that the dataset has;
    extra columns and missing columns get no entry. *)
Theorem field_checks_cover_present_columns
        (info : CatalogInfo) (df : DataFrame) (dataset_name : string)
        (schema_name : option string) (report : Report)
        (n : string) (spec : SchemaSpec) :
  collect_schema_report info df dataset_name schema_name = Ok report ->
  report_schema_name report = Some n -> n <> "" ->
  dict_get n (schemas info) = Some spec ->
  forall c,
    (exists cr, dict_get c (field_checks (findings report)) = Some cr) <->
    In c (expected_columns spec) /\ In c (column_labels df).
Proof.
  intros H Hname Hne Hg c. apply collect_schema_report_stages in H
    as (checked & id & my & Hc & _ & _ & Hn & _ & _ & _ & _ & _ & _ & _ & Hf).
  rewrite Hname in Hn. rewrite <- Hn in Hc.
  unfold check_resolved in Hc. rewrite (schema_spec_of_named _ _ _ Hne Hg) in Hc.
  unfold check_against_schema in Hc.
  apply bind_Ok in Hc as (f' & Hloop & Hc). injection Hc as <-.
  rewrite Hf. cbn [snd].
  assert (Hmy : field_checks (model_year_warning my f') = field_checks f').
  { unfold model_year_warning. destruct my as [[col k]|]; [|reflexivity].
    now autorewrite with findings. }
  rewrite Hmy, (for_each_columns_records _ _ _ _ _ _ _ c Hloop).
  autorewrite with findings. rewrite catalog_warnings_no_checks.
  unfold present_expected_of. rewrite filter_In, mem_In. split.
  - intros [[cr Hcr]|Hin]; [discriminate | exact Hin].
  - intros Hin. now right.
Qed.

Lemma field_checks_cover_present_columns_witness :
  exists report spec,
    collect_schema_report (_schema_catalog (recalls_only sample_recalls_doc))
                          sample_frame "RCL.txt" None = Ok report /\
    dict_get "recalls" (schemas (_schema_catalog (recalls_only sample_recalls_doc)))
    = Some spec /\
    ((exists cr, dict_get "year" (field_checks (findings report)) = Some cr) <->
     In "year" (expected_columns spec) /\ In "year" (column_labels sample_frame)).
Proof.
  eexists. eexists. split; [vm_compute; reflexivity|].
  split; [vm_compute; reflexivity|].
  apply (field_checks_cover_present_columns
           (_schema_catalog (recalls_only sample_recalls_doc))
           sample_frame "RCL.txt" None _ "recalls").
  - vm_compute. reflexivity.
  - reflexivity.
  - discriminate.
  - vm_compute. reflexivity.
Defined.

Lemma find_first {A} (p : A -> bool) (l : list A) :
  match find p l with
  | Some c =>
      p c = true /\
      exists before after,
        l = before ++ c :: after /\ forall x, In x before -> p x = false
  | None => forall x, In x l -> p x = false
  end.
Proof.
  induction l as [|x l IH]; simpl; [intros y []|].
  destruct (p x) eqn:E.
  - split; [exact E|]. exists [], l. split; [reflexivity | intros y []].
  - destruct (find p l) as [c|].
    + destruct IH as (Hc & before & after & Hl & Hb). split; [exact Hc|].
      exists (x :: before), after. split; [now rewrite Hl|].
      intros y [<-|Hy]; [exact E | now apply Hb].
    + intros y [<-|Hy]; [exact E | now apply IH].
Qed.

Lemma first_present_find (labels candidates : list string) :
  first_present labels candidates (find (fun c => mem c labels) candidates).
Proof.
  unfold first_present.
  pose proof (find_first (fun c => mem c labels) candidates) as H.
  destruct (find (fun c => mem c labels) candidates) as [c|].
  - destruct H as (Hc & before & after & Hl & Hb).
    split; [now apply mem_In|]. exists before, after. split; [exact Hl|].
    intros x Hx. now apply mem_false, Hb.
  - intros x Hx. now apply mem_false, H.
Qed.

(** X13: [_find_id_column] returns the first of odi_number, odino, cmplid,
    complaint_number, record_id that is a column of the dataset, and
    [_find_model_year_column] the first of yeartxt, model_year, modelyear,
    veh_year, year; each returns nothing exactly when the dataset has none
    of its candidates. *)
Theorem finders_return_first_present (df : DataFrame) :
  first_present (column_labels df) id_column_priority (_find_id_column df) /\
  first_present (column_labels df) model_year_priority (_find_model_year_column df).
Proof.
  split.
  - replace (_find_id_column df)
      with (find (fun c => mem c (column_labels df)) id_column_priority).
    + apply first_present_find.
    + unfold _find_id_column, id_column_priority.
      generalize COMMON_ODI_COMPLAINT_ID_COLUMNS. intros l.
      induction l as [|x l IH]; simpl; [reflexivity|].
      destruct (mem x (column_labels df)); [reflexivity | exact IH].
  - replace (_find_model_year_column df)
      with (find (fun c => mem c (column_labels df)) model_year_priority).
    + apply first_present_find.
    + unfold _find_model_year_column, model_year_priority. cbn [find].
      now destruct (mem "yeartxt" (column_labels df)).
Qed.

Lemma count_duplicated_zero (seen l : list (option string)) :
  count_duplicated option_string_eqb seen l = 0 <->
  NoDup l /\ forall x, In x l -> ~ In x seen.
Proof.
  assert (Heq : forall a b, option_string_eqb a b = true <-> a = b).
  { intros [a|] [b|]; simpl; try (split; congruence).
    rewrite String.eqb_eq. split; congruence. }
  assert (Hex : forall x s, existsb (option_string_eqb x) s = true <-> In x s).
  { intros x s. rewrite existsb_exists. split.
    - intros (y & Hy & E). apply Heq in E. now subst.
    - intros H. exists x. split; [exact H | now apply Heq]. }
  revert seen. induction l as [|x l IH]; intros seen; cbn [count_duplicated].
  - split; [intros _; split; [constructor | intros y []] | reflexivity].
  - destruct (existsb (option_string_eqb x) seen) eqn:E.
    + split; [discriminate|]. intros [_ H]. apply Hex in E.
      elim (H x (or_introl eq_refl) E).
    + cbn [Nat.add]. rewrite IH. split.
      * intros [Hnd Hseen]. split.
        -- constructor; [|exact Hnd]. intros Hin. apply (Hseen x Hin). now left.
        -- intros y [<-|Hy] Hin.
           ++ apply Hex in Hin. congruence.
           ++ apply (Hseen y Hy). now right.
      * intros [Hnd Hseen]. inversion Hnd as [|? ? Hx Hnd']; subst. split; [exact Hnd'|].
        intros y Hy [<-|Hin]; [contradiction|].
        apply (Hseen y (or_intror Hy) Hin).
Qed.

(** X14: when an identifier column is found, the report's null count is the
    number of missing cells of that column, the duplicate count is left out
    exactly when the dataset has more than 1,000,000 rows, and it is 0
    exactly when the cells of the column, missing ones included, are
    pairwise distinct. *)
Theorem id_column_diagnostics
        (df : DataFrame) (c : string) (nulls : option nat) (dups : option nat) :
  check_id_column df = Ok (Some c, nulls, dups) ->
  exists series,
    getitem df c = Ok (OneSeries series) /\
    nulls = Some (length (filter isna (cells series))) /\
    (dups = None <-> (1000000 < N.of_nat (frame_rows df))%N) /\
    (dups = Some 0 <->
     (N.of_nat (frame_rows df) <= 1000000)%N /\ NoDup (cells series)).
Proof.
  unfold check_id_column. destruct (_find_id_column df) as [c'|]; [|discriminate].
  intros H. apply bind_Ok in H as (sel & Hsel & H).
  apply bind_Ok in H as (series & Hser & H).
  destruct sel as [s|cols]; [|discriminate]. injection Hser as ->.
  injection H as -> <- <-.
  exists series. split; [exact Hsel|]. split; [now rewrite mask_sum_map|].
  destruct (N.leb_spec (N.of_nat (frame_rows df)) 1000000) as [Hle|Hgt].
  - split; [split; [discriminate | lia]|].
    split.
    + intros H. injection H as H. apply count_duplicated_zero in H. tauto.
    + intros [_ Hnd]. f_equal. apply count_duplicated_zero.
      split; [exact Hnd | intros x _ []].
  - split; [split; [intros _; exact Hgt | reflexivity]|].
    split; [discriminate | intros [H _]; lia].
Qed.

Lemma id_column_diagnostics_witness :
  exists series,
    getitem sample_frame "record_id" = Ok (OneSeries series) /\
    Some 0 = Some (length (filter isna (cells series))).
Proof.
  destruct (id_column_diagnostics sample_frame "record_id" (Some 0) (Some 0))
    as (series & Hget & Hnulls & _).
  - vm_compute. reflexivity.
  - exists series. now split.
Defined.
